(** * Supplier recommendation system (src/supplier.py)

    Shallow embedding of the preprocessing of the supplier table, of
    [recommend_suppliers] and of the fallback advice ([alasan]) of the
    Streamlit page.  Numbers of the pandas table are modelled as exact
    rationals [Q]; integer columns (Quantity, PO_ID, dates as day numbers)
    as [Z]; a NaN / NaT cell as [None]. *)

From Stdlib Require Import ZArith QArith Qabs Qround String Ascii List Bool Lia.
From Stdlib Require Import Sorting.Sorted Sorting.Permutation Lqa Qfield.
Import ListNotations.

Open Scope Z_scope.

(** ** Python scalars *)

(** The only exception the embedded code can raise. *)
Inductive exn := ZeroDivisionError.

(** A small error monad for code that may raise. *)
Inductive result (A : Type) : Type :=
| Ok (a : A)
| Err (e : exn).
Arguments Ok {A} a.
Arguments Err {A} e.

Definition bind {A B} (m : result A) (f : A -> result B) : result B :=
  match m with Ok a => f a | Err e => Err e end.

Notation "x <- m ;; k" := (bind m (fun x => k))
  (at level 61, m at next level, right associativity).

Fixpoint mapM {A B} (f : A -> result B) (l : list A) : result (list B) :=
  match l with
  | [] => Ok []
  | x :: xs => y <- f x ;; ys <- mapM f xs ;; Ok (y :: ys)
  end.

(** Python's [x / y]: raises [ZeroDivisionError] on a zero divisor. *)
Definition py_div (x y : Q) : result Q :=
  if Qeq_bool y 0 then Err ZeroDivisionError else Ok (x / y)%Q.

(** Python's [round(x)]: nearest integer, ties to the even one. *)
Definition py_round (q : Q) : Z :=
  let f := Qfloor q in
  let r := (q - inject_Z f)%Q in
  if negb (Qle_bool r (1 # 2)) then f + 1
  else if Qeq_bool r (1 # 2) then (if Z.even f then f else f + 1)
  else f.

(** pandas [mean] of a non-empty column. *)
Definition mean (l : list Q) : Q :=
  (fold_right Qplus 0 l / inject_Z (Z.of_nat (length l)))%Q.

(** Dates are day numbers (days since 1970-01-01); [days_from_civil y m d]
    is the day number of the proleptic Gregorian date y-m-d. *)
Definition days_from_civil (y m d : Z) : Z :=
  let y := if m <=? 2 then y - 1 else y in
  let era := y / 400 in
  let yoe := y - era * 400 in
  let mp := (m + 9) mod 12 in
  let doy := (153 * mp + 2) / 5 + d - 1 in
  let doe := yoe * 365 + yoe / 4 - yoe / 100 + doy in
  era * 146097 + doe - 719468.

(** ** The table *)

(** A line of Data/data_supplier.csv, after [pd.to_datetime]. *)
Module Raw.
Record t := mk {
  PO_ID : Z;
  Supplier : string;
  Item_Category : string;
  Compliance : string;
  Order_Status : string;
  Quantity : Z;
  Defective_Units : option Q;
  Unit_Price : Q;
  Negotiated_Price : Q;
  Order_Date : Z;
  Delivery_Date : option Z
}.
End Raw.

(** A row of the prepared table [df] (with the derived columns). *)
Record row := mkrow {
  PO_ID : Z;
  Supplier : string;
  Item_Category : string;
  Compliance : string;
  Order_Status : string;
  Quantity : Z;
  Defective_Units : Q;
  Unit_Price : Q;
  Negotiated_Price : Q;
  Order_Date : Z;
  Delivery_Date : option Z;
  Lead_Time : option Z;
  Defect_Rate : Q;
  Price_Efficiency : Q
}.

(** ** Preprocessing (lines 9-40) *)

Definition usd_to_idr : Q := 16000.

Definition set_prices (r : Raw.t) (up np : Q) : Raw.t :=
  Raw.mk (Raw.PO_ID r) (Raw.Supplier r) (Raw.Item_Category r) (Raw.Compliance r)
    (Raw.Order_Status r) (Raw.Quantity r) (Raw.Defective_Units r) up np
    (Raw.Order_Date r) (Raw.Delivery_Date r).

Definition set_delivery (r : Raw.t) (d : option Z) : Raw.t :=
  Raw.mk (Raw.PO_ID r) (Raw.Supplier r) (Raw.Item_Category r) (Raw.Compliance r)
    (Raw.Order_Status r) (Raw.Quantity r) (Raw.Defective_Units r)
    (Raw.Unit_Price r) (Raw.Negotiated_Price r) (Raw.Order_Date r) d.

Definition set_defective (r : Raw.t) (du : option Q) : Raw.t :=
  Raw.mk (Raw.PO_ID r) (Raw.Supplier r) (Raw.Item_Category r) (Raw.Compliance r)
    (Raw.Order_Status r) (Raw.Quantity r) du
    (Raw.Unit_Price r) (Raw.Negotiated_Price r) (Raw.Order_Date r)
    (Raw.Delivery_Date r).

(** [df['Unit_Price'] * usd_to_idr], [df['Negotiated_Price'] * usd_to_idr]. *)
Definition convert (r : Raw.t) : Raw.t :=
  set_prices r (Raw.Unit_Price r * usd_to_idr)%Q (Raw.Negotiated_Price r * usd_to_idr)%Q.

(** [(df['Delivery_Date'] - df['Order_Date']).dt.days], NaN on a NaT date. *)
Definition lead_time_of (r : Raw.t) : option Z :=
  option_map (fun d => d - Raw.Order_Date r) (Raw.Delivery_Date r).

(** [df.dropna(subset=['Delivery_Date'])] *)
Definition dropna_delivery (df : list Raw.t) : list Raw.t :=
  filter (fun r => match Raw.Delivery_Date r with Some _ => true | None => false end) df.

(** The [Lead_Time] column of the group of supplier [s] in
    [df.dropna(subset=['Delivery_Date']).groupby('Supplier')] (NaN skipped). *)
Definition reference_lead_times (df : list Raw.t) (s : string) : list Z :=
  flat_map (fun r => if String.eqb (Raw.Supplier r) s
                     then match lead_time_of r with Some l => [l] | None => [] end
                     else [])
    (dropna_delivery df).

(** [mean_lead_time], as a lookup: [None] when [s] is not in its index. *)
Definition mean_lead_time (df : list Raw.t) (s : string) : option Q :=
  match reference_lead_times df s with
  | [] => None
  | ls => Some (mean (map inject_Z ls))
  end.

(** [isi_delivery_date] (lines 23-27). *)
Definition isi_delivery_date (mlt : string -> option Q) (r : Raw.t) : option Z :=
  match Raw.Delivery_Date r, mlt (Raw.Supplier r) with
  | None, Some m => Some (Raw.Order_Date r + py_round m)
  | _, _ => Raw.Delivery_Date r
  end.

(** [df['Delivery_Date'] = df.apply(isi_delivery_date, axis=1)] (lines 18-29). *)
Definition impute (df : list Raw.t) : list Raw.t :=
  let mlt := mean_lead_time df in
  map (fun r => set_delivery r (isi_delivery_date mlt r)) df.

(** [df['Defective_Units'].fillna(0)] *)
Definition fillna_defective (r : Raw.t) : Raw.t :=
  set_defective r (Some (match Raw.Defective_Units r with Some d => d | None => 0%Q end)).

(** The lambda of line 37. *)
Definition defect_rate_of (du : Q) (q : Z) : result Q :=
  if negb (Z.eqb q 0) then (x <- py_div du (inject_Z q) ;; Ok (x * 100)%Q)
  else Ok 0%Q.

(** The derived columns of lines 35-40 for one row.  [Price_Efficiency] is
    the vectorised pandas division; a zero [Unit_Price] (inf / NaN in
    pandas) is outside the model. *)
Definition derive (r : Raw.t) : result row :=
  let du := match Raw.Defective_Units r with Some d => d | None => 0%Q end in
  dr <- defect_rate_of du (Raw.Quantity r) ;;
  Ok (mkrow (Raw.PO_ID r) (Raw.Supplier r) (Raw.Item_Category r) (Raw.Compliance r)
        (Raw.Order_Status r) (Raw.Quantity r) du (Raw.Unit_Price r)
        (Raw.Negotiated_Price r) (Raw.Order_Date r) (Raw.Delivery_Date r)
        (lead_time_of r) dr
        ((1 - Raw.Negotiated_Price r / Raw.Unit_Price r) * 100)%Q).

(** Lines 9-40: the prepared table [df]. *)
Definition prepare (raws : list Raw.t) : result (list row) :=
  let df1 := map convert raws in
  let df2 := impute df1 in
  let df3 := map fillna_defective df2 in
  mapM derive df3.

(** ** Strings *)

(** [str.lower] on one ASCII character. *)
Definition ascii_lower (c : ascii) : ascii :=
  let n := nat_of_ascii c in
  if (65 <=? n)%nat && (n <=? 90)%nat then ascii_of_nat (n + 32)%nat else c.

(** [str.lower] on ASCII text, used to run the examples; the theorems take
    [str_lower] as a parameter. *)
Fixpoint ascii_str_lower (s : string) : string :=
  match s with
  | EmptyString => EmptyString
  | String c s' => String (ascii_lower c) (ascii_str_lower s')
  end.

(** Python's [pat in s]. *)
Fixpoint contains (pat s : string) : bool :=
  match s with
  | EmptyString => String.prefix pat s
  | String _ s' => String.prefix pat s || contains pat s'
  end.

(** ** Generic stable insertion sort *)

Section Isort.
Context {A : Type} (cmp : A -> A -> comparison).

Definition cmp_le (x y : A) : bool :=
  match cmp x y with Gt => false | _ => true end.

(** [insert x l] puts [x] before the first element not smaller than it. *)
Fixpoint insert (x : A) (l : list A) : list A :=
  match l with
  | [] => [x]
  | y :: ys => if cmp_le x y then x :: l else y :: insert x ys
  end.

Definition isort (l : list A) : list A := fold_right insert [] l.
End Isort.

(** Lexicographic order on the tuple of group-key values (Python tuple
    comparison of strings). *)
Fixpoint key_compare (a b : list string) : comparison :=
  match a, b with
  | [], [] => Eq
  | [], _ :: _ => Lt
  | _ :: _, [] => Gt
  | x :: xs, y :: ys =>
      match String.compare x y with Eq => key_compare xs ys | c => c end
  end.

Definition key_eqb (a b : list string) : bool :=
  match key_compare a b with Eq => true | _ => false end.

(** Distinct values in order of first occurrence. *)
Definition uniq {A} (eqb : A -> A -> bool) (l : list A) : list A :=
  fold_left (fun acc x => if existsb (eqb x) acc then acc else acc ++ [x]) l [].

(** An aggregated row of the result. *)
Module Res.
Record t := mk {
  key : list string;
  Avg_Negotiated_Price : Q;
  Lead_Time : option Q;
  Defect_Rate_pct : Q;            (* 'Defect_Rate (%)' *)
  Price_Efficiency_pct : Q;       (* 'Price_Efficiency (%)' *)
  Total_Quantity : Z;
  Total_Orders : Z;
  status : list (option Z)        (* one count per [status_cols] entry *)
}.
End Res.

(** ** [recommend_suppliers] (lines 43-101) *)

Section Recommend.

(** Python's [str.lower] (pandas' [.str.lower()] applies it per cell), with
    its Unicode case mapping left abstract: everything from here on holds for
    any lowering function. [ascii_str_lower] instantiates it in the examples. *)
Variable str_lower : string -> string.


Definition filter_category (item_category : string) (df : list row) : list row :=
  if negb (String.eqb item_category "All"%string)
  then filter (fun r => String.eqb (str_lower (Item_Category r)) (str_lower item_category)) df
  else df.

Definition filter_compliance (compliance_preference : string) (df : list row) : list row :=
  if String.eqb compliance_preference "Yes"%string
  then filter (fun r => String.eqb (Compliance r) "Yes"%string) df
  else if String.eqb compliance_preference "No"%string
  then filter (fun r => String.eqb (Compliance r) "No"%string) df
  else df.

(** [Lead_Time <= m]; a NaN compares false. *)
Definition lead_le (l : option Z) (m : Q) : bool :=
  match l with Some x => Qle_bool (inject_Z x) m | None => false end.

Definition threshold_ok (max_price max_lead_time max_defect_rate : Q) (r : row) : bool :=
  Qle_bool (Negotiated_Price r) max_price &&
  lead_le (Lead_Time r) max_lead_time &&
  Qle_bool (Defect_Rate r) max_defect_rate.

Definition filter_thresholds (max_price max_lead_time max_defect_rate : Q) (df : list row) :=
  filter (threshold_ok max_price max_lead_time max_defect_rate) df.

(** [filtered_df] after line 58. *)
Definition filtered_rows (df : list row) (item_category : string)
    (max_price max_lead_time max_defect_rate : Q) (compliance_preference : string) :=
  filter_thresholds max_price max_lead_time max_defect_rate
    (filter_compliance compliance_preference (filter_category item_category df)).

Definition group_cols (item_category compliance_preference : string) : list string :=
  ["Supplier"%string]
  ++ (if String.eqb item_category "All"%string then ["Item_Category"%string] else [])
  ++ (if String.eqb compliance_preference "All"%string then ["Compliance"%string] else []).

(** The values of [group_cols] in a row. *)
Definition group_key (item_category compliance_preference : string) (r : row) : list string :=
  [Supplier r]
  ++ (if String.eqb item_category "All"%string then [Item_Category r] else [])
  ++ (if String.eqb compliance_preference "All"%string then [Compliance r] else []).

Record table := mktable {
  key_cols : list string;
  status_cols : list string;
  rows : list Res.t
}.

(** [pd.DataFrame()] *)
Definition empty_frame : table := mktable [] [] [].

(** [DataFrame.empty] *)
Definition is_empty (t : table) : bool :=
  match rows t with [] => true | _ => false end.

(** pandas [mean] with NaN skipped; NaN when nothing is left. *)
Definition mean_skipna (l : list (option Q)) : option Q :=
  match flat_map (fun o => match o with Some x => [x] | None => [] end) l with
  | [] => None
  | xs => Some (mean xs)
  end.

Definition group_rows (cat pref : string) (filtered : list row) (k : list string) :=
  filter (fun r => key_eqb (group_key cat pref r) k) filtered.

(** The keys of [filtered_df.groupby(group_cols)], sorted. *)
Definition group_keys (cat pref : string) (filtered : list row) : list (list string) :=
  isort key_compare (uniq key_eqb (map (group_key cat pref) filtered)).

(** [.agg(agg_dict).rename(...)] for one group. *)
Definition aggregate (cat pref : string) (filtered : list row) (k : list string) : Res.t :=
  let g := group_rows cat pref filtered k in
  Res.mk k
    (mean (map Negotiated_Price g))
    (mean_skipna (map (fun r => option_map inject_Z (Lead_Time r)) g))
    (mean (map Defect_Rate g))
    (mean (map Price_Efficiency g))
    (fold_right Z.add 0 (map Quantity g))
    (Z.of_nat (length g))
    [].

(** The columns of [pd.crosstab(..., filtered_df['Order_Status'])]. *)
Definition status_values (filtered : list row) : list string :=
  isort String.compare (uniq String.eqb (map Order_Status filtered)).

(** The crosstab: one line of counts per group key. *)
Definition crosstab (cat pref : string) (filtered : list row) : list (list string * list Z) :=
  map (fun k => (k, map (fun s => Z.of_nat (length
          (filter (fun r => String.eqb (Order_Status r) s) (group_rows cat pref filtered k))))
        (status_values filtered)))
    (group_keys cat pref filtered).

(** [pd.merge(result, status_counts, on=group_cols, how='left')] for one row. *)
Definition merge_status (sts : list string) (ct : list (list string * list Z)) (a : Res.t) : Res.t :=
  let counts :=
    match find (fun p => key_eqb (fst p) (Res.key a)) ct with
    | Some (_, cs) => map Some cs
    | None => map (fun _ => None) sts
    end in
  Res.mk (Res.key a) (Res.Avg_Negotiated_Price a) (Res.Lead_Time a) (Res.Defect_Rate_pct a)
    (Res.Price_Efficiency_pct a) (Res.Total_Quantity a) (Res.Total_Orders a) counts.

(** Ascending order of a nullable column, NaN last. *)
Definition opt_compare (a b : option Q) : comparison :=
  match a, b with
  | Some x, Some y => Qcompare x y
  | Some _, None => Lt
  | None, Some _ => Gt
  | None, None => Eq
  end.

(** [sort_values(by=['Defect_Rate (%)', 'Lead_Time', 'Avg_Negotiated_Price'])]. *)
Definition sort_compare (a b : Res.t) : comparison :=
  match Qcompare (Res.Defect_Rate_pct a) (Res.Defect_Rate_pct b) with
  | Eq =>
      match opt_compare (Res.Lead_Time a) (Res.Lead_Time b) with
      | Eq => Qcompare (Res.Avg_Negotiated_Price a) (Res.Avg_Negotiated_Price b)
      | c => c
      end
  | c => c
  end.

(** The merged result before [sort_values], in group-key order. *)
Definition merged_groups (filtered : list row) (cat pref : string) : list Res.t :=
  map (merge_status (status_values filtered) (crosstab cat pref filtered))
    (map (aggregate cat pref filtered) (group_keys cat pref filtered)).

Definition recommend_suppliers (df : list row) (item_category : string)
    (max_price max_lead_time max_defect_rate : Q) (compliance_preference : string) : table :=
  let filtered_df := filtered_rows df item_category max_price max_lead_time
                       max_defect_rate compliance_preference in
  match filtered_df with
  | [] => empty_frame
  | _ :: _ =>
      mktable (group_cols item_category compliance_preference)
        (status_values filtered_df)
        (isort sort_compare (merged_groups filtered_df item_category compliance_preference))
  end.

(** ** Fallback advice (lines 137-170) *)

(** Number formatting of the f-strings. *)
Definition digit (d : Z) : ascii := ascii_of_nat (48 + Z.to_nat d).

Fixpoint digits_aux (fuel : nat) (n : Z) (acc : string) : string :=
  match fuel with
  | O => acc
  | S f =>
      let acc' := String (digit (n mod 10)) acc in
      if n <? 10 then acc' else digits_aux f (n / 10) acc'
  end.

(** Decimal digits of [n >= 0]. *)
Definition digits (n : Z) : string :=
  digits_aux (S (Z.to_nat (Z.log2 n))) n EmptyString.

(** [str(n)] *)
Definition str_int (n : Z) : string :=
  if n <? 0 then String.append "-" (digits (- n)) else digits n.

(** Three digits, zero padded. *)
Definition pad3 (n : Z) : string :=
  String (digit (n / 100)) (String (digit ((n / 10) mod 10)) (String (digit (n mod 10)) EmptyString)).

Fixpoint commas_aux (fuel : nat) (n : Z) : string :=
  match fuel with
  | O => digits n
  | S f =>
      if n <? 1000 then digits n
      else String.append (commas_aux f (n / 1000)) (String.append "," (pad3 (n mod 1000)))
  end.

(** [f"{n:,}"] for an integer [n]. *)
Definition fmt_commas (n : Z) : string :=
  let a := Z.abs n in
  let s := commas_aux (S (Z.to_nat (Z.log2 a))) a in
  if n <? 0 then String.append "-" s else s.

(** [int(x)]: truncation toward zero. *)
Definition py_int (x : Q) : Z := Z.quot (Qnum x) (Zpos (Qden x)).

(** [f"{x:.1f}"]: the value rounded half-even to one decimal. *)
Definition fmt1 (x : Q) : string :=
  let n := py_round (Qabs x * 10)%Q in
  let s := String.append (digits (n / 10)) (String "." (String (digit (n mod 10)) EmptyString)) in
  if Qle_bool 0 x then s else String.append "-" s.

Fixpoint frac_digits (fuel : nat) (r : Q) : list Z :=
  match fuel with
  | O => []
  | S f => let d := Qfloor (r * 10)%Q in d :: frac_digits f (r * 10 - inject_Z d)%Q
  end.

Fixpoint drop_trailing_zeros (l : list Z) : list Z :=
  match l with
  | [] => []
  | d :: ds =>
      match drop_trailing_zeros ds with
      | [] => if d =? 0 then [] else [d]
      | ds' => d :: ds'
      end
  end.

(** [str(x)] of a float: exact for the values whose decimal expansion
    stops within 17 digits (e.g. a mean of a few whole day counts). *)
Definition repr_float (x : Q) : string :=
  let a := Qabs x in
  let ip := Qfloor a in
  let fr := match drop_trailing_zeros (frac_digits 17 (a - inject_Z ip)%Q) with
            | [] => [0] | ds => ds end in
  let s := String.append (digits ip)
             (String "." (fold_right (fun d acc => String (digit d) acc) EmptyString fr)) in
  if Qle_bool 0 x then s else String.append "-" s.

(** Reading a displayed number back. [int(s)] of a string of decimal
    digits, accumulated left to right from [v]. *)
Fixpoint read_digits (s : string) (v : Z) : Z :=
  match s with
  | EmptyString => v
  | String c s' => read_digits s' (v * 10 + (Z.of_nat (nat_of_ascii c) - 48))
  end.

Definition is_digit (c : ascii) : bool :=
  (48 <=? nat_of_ascii c)%nat && (nat_of_ascii c <=? 57)%nat.

Fixpoint all_digits (s : string) : bool :=
  match s with
  | EmptyString => true
  | String c s' => is_digit c && all_digits s'
  end.

(** [s.replace(",", "")] *)
Fixpoint drop_commas (s : string) : string :=
  match s with
  | EmptyString => EmptyString
  | String c s' => if Ascii.eqb c "," then drop_commas s' else String c (drop_commas s')
  end.

(** The text [",ddd,ddd..."] that follows the leading digits of a number
    grouped by commas. *)
Fixpoint comma_groups (gs : list string) : string :=
  match gs with
  | [] => EmptyString
  | g :: gs' => String "," (String.append g (comma_groups gs'))
  end.

(** [alasan_list] of [alasan] (lines 157-166), for the original criteria. *)
Definition alasan_list (max_price max_lead_time max_defect_rate : Q) (row : Res.t) : list string :=
  let d := Res.Defect_Rate_pct row in
  (if Qle_bool (Qabs (d - max_defect_rate)) 2
   then [String.append "Defect Rate mendekati batas (" (String.append (fmt1 d) "%)")]
   else if negb (Qle_bool d max_defect_rate)
   then [String.append "Defect Rate " (String.append (fmt1 d) "%")]
   else [])
  ++ (if negb (Qle_bool (Res.Avg_Negotiated_Price row) max_price)
      then [String.append "Harga "
              (String.append (fmt_commas (py_int (Res.Avg_Negotiated_Price row)))
                 (String.append " > " (fmt_commas (py_int max_price))))]
      else [])
  ++ (match Res.Lead_Time row with
      | Some l => if negb (Qle_bool l max_lead_time)
                  then [String.append "Lead Time " (String.append (repr_float l) " hari")]
                  else []
      | None => []
      end).

(** [alasan]: [", ".join(alasan_list)]. *)
Definition alasan (max_price max_lead_time max_defect_rate : Q) (row : Res.t) : string :=
  String.concat ", " (alasan_list max_price max_lead_time max_defect_rate row).

(** What the page shows after "Cari Supplier". *)
Inductive outcome :=
| Recommended (hasil : table)
| NoAlternative
| Alternatives (alternatif : table) (catatan : list string).

(** Lines 127-170. *)
Definition advise (df : list row) (item_category : string)
    (max_price max_lead_time max_defect_rate : Q) (compliance_preference : string) : outcome :=
  let hasil := recommend_suppliers df item_category max_price max_lead_time
                 max_defect_rate compliance_preference in
  if is_empty hasil then
    let toleransi_defect := (max_defect_rate + 2)%Q in
    let toleransi_lead := (max_lead_time + 2)%Q in
    let toleransi_price := (max_price * (3 # 2))%Q in
    let alternatif := recommend_suppliers df item_category toleransi_price toleransi_lead
                        toleransi_defect compliance_preference in
    if is_empty alternatif then NoAlternative
    else Alternatives alternatif
           (map (alasan max_price max_lead_time max_defect_rate) (rows alternatif))
  else Recommended hasil.

(** The options of the "Pilih kategori barang" selectbox (line 108):
    [["All"] + sorted(df['Item_Category'].dropna().unique().tolist())]. *)
Definition item_categories (df : list row) : list string :=
  "All"%string :: isort String.compare (uniq String.eqb (map Item_Category df)).

(** The prepared table, or [] if preprocessing raised. *)
Definition prepared (raws : list Raw.t) : list row :=
  match prepare raws with Ok df => df | Err _ => [] end.

(** Sample rows for the concrete statements. *)
Definition mkr (po : Z) (s cat comp st : string) (np : Q) (lt : option Z) (dr : Q) : row :=
  mkrow po s cat comp st 100 0 np np 0 lt lt dr 0.


(** The pre-imputation lead times of supplier [s]: one per record of [s]
    with a non-null [Delivery_Date] (the wording of the imputation rule). *)
Definition prior_lead_times (df : list Raw.t) (s : string) : list Z :=
  flat_map (fun r => if String.eqb (Raw.Supplier r) s
                     then match Raw.Delivery_Date r with
                          | Some d => [d - Raw.Order_Date r]
                          | None => []
                          end
                     else [])
    df.

(** ** Sample tables *)

Definition mkraw (po : Z) (s : string) (q : Z) (du : option Q) (o : Z) (d : option Z) : Raw.t :=
  Raw.mk po s "Tools" "Yes" "Closed" q du 10 9 o d.

(** Supplier S with deliveries after 3, 5 and 7 days, and one order of
    2024-01-01 without a delivery date. *)
Definition raws_impute : list Raw.t :=
  [mkraw 1 "S" 10 (Some 0%Q) (days_from_civil 2024 1 1) (Some (days_from_civil 2024 1 4));
   mkraw 2 "S" 10 (Some 0%Q) (days_from_civil 2024 1 1) (Some (days_from_civil 2024 1 6));
   mkraw 3 "S" 10 (Some 0%Q) (days_from_civil 2024 1 1) (Some (days_from_civil 2024 1 8));
   mkraw 4 "S" 10 None (days_from_civil 2024 1 1) None].

(** A supplier whose only order has no delivery date. *)
Definition raws_noref : list Raw.t :=
  [mkraw 1 "T" 10 (Some 0%Q) (days_from_civil 2024 1 1) None].

(** Three groups with defect rates 5, 2, 2 and lead times 3, 1, 4. *)
Definition df_sort : list row :=
  [mkr 1 "C" "Tools" "Yes" "Open" 10 (Some 3) 5;
   mkr 2 "B" "Tools" "Yes" "Open" 10 (Some 1) 2;
   mkr 3 "A" "Tools" "Yes" "Closed" 10 (Some 4) 2].

(** Two suppliers with defect rates 6.5 and 5.5. *)
Definition df_fallback : list row :=
  [mkr 1 "A" "Tools" "Yes" "Open" 150000 (Some 3) (13 # 2);
   mkr 2 "B" "Tools" "Yes" "Open" 150000 (Some 4) (11 # 2)].

(** ** Lemmas *)

Lemma mapM_nth {A B} (f : A -> result B) (l : list A) (df : list B) :
  mapM f l = Ok df ->
  forall i a, nth_error l i = Some a -> exists b, f a = Ok b /\ nth_error df i = Some b.
Proof.
  revert df; induction l as [|x xs IH]; intros df H i a Ha.
  - destruct i; discriminate.
  - simpl in H. destruct (f x) as [y|e] eqn:Ef; [|discriminate].
    simpl in H. destruct (mapM f xs) as [ys|e] eqn:Em; [|discriminate].
    simpl in H. inversion H; subst.
    destruct i as [|i]; simpl in Ha.
    + inversion Ha; subst. eauto.
    + apply (IH ys eq_refl i a Ha).
Qed.

Lemma defect_rate_of_ok (du : Q) (q : Z) :
  defect_rate_of du q = Ok (if q =? 0 then 0 else du / inject_Z q * 100)%Q.
Proof.
  unfold defect_rate_of, py_div.
  destruct (Z.eqb_spec q 0) as [Hq|Hq]; simpl; [reflexivity|].
  destruct (Qeq_bool (inject_Z q) 0) eqn:E.
  - apply Qeq_bool_iff in E. unfold Qeq in E. simpl in E. lia.
  - reflexivity.
Qed.

Lemma mapM_derive_defect (h : Raw.t -> Raw.t) :
  (forall r, Raw.Quantity (h r) = Raw.Quantity r /\
             Raw.Defective_Units (h r) =
               Some (match Raw.Defective_Units r with Some d => d | None => 0%Q end)) ->
  forall l, exists df, mapM derive (map h l) = Ok df /\
    Forall2 (fun r x => Defect_Rate x =
      (if Raw.Quantity r =? 0 then 0
       else (match Raw.Defective_Units r with Some d => d | None => 0 end)
            / inject_Z (Raw.Quantity r) * 100)%Q) l df.
Proof.
  intros Hh l. induction l as [|r l [df [Hdf Hall]]].
  - exists []. split; [reflexivity | constructor].
  - destruct (Hh r) as [Hq Hd].
    simpl. unfold derive at 1. rewrite defect_rate_of_ok, Hd, Hq. simpl.
    rewrite Hdf. simpl.
    eexists. split; [reflexivity|]. constructor; [reflexivity | exact Hall].
Qed.

Lemma filter_length_mono {A} (f g : A -> bool) (l : list A) :
  (forall x, f x = true -> g x = true) -> (length (filter f l) <= length (filter g l))%nat.
Proof.
  intros Hfg. induction l as [|x l IH]; simpl; [lia|].
  destruct (f x) eqn:Ef.
  - rewrite (Hfg x Ef). simpl. lia.
  - destruct (g x); simpl; lia.
Qed.

Lemma threshold_ok_iff mp ml md r :
  threshold_ok mp ml md r = true <->
  (Negotiated_Price r <= mp)%Q /\ (exists l, Lead_Time r = Some l /\ inject_Z l <= ml)%Q
  /\ (Defect_Rate r <= md)%Q.
Proof.
  unfold threshold_ok, lead_le.
  rewrite !andb_true_iff, !Qle_bool_iff.
  destruct (Lead_Time r) as [l|].
  - rewrite Qle_bool_iff. split.
    + intros [[H1 H2] H3]. eauto.
    + intros [H1 [[l' [E H2]] H3]]. inversion E; subst. auto.
  - split.
    + intros [[_ H] _]. discriminate.
    + intros [_ [[l' [E _]] _]]. discriminate.
Qed.

Lemma filter_category_In cat df r :
  In r (filter_category cat df) <->
  In r df /\ (cat = "All"%string \/ str_lower (Item_Category r) = str_lower cat).
Proof.
  unfold filter_category.
  destruct (String.eqb_spec cat "All") as [E|E]; simpl.
  - tauto.
  - rewrite filter_In, String.eqb_eq. tauto.
Qed.

Lemma filter_compliance_In pref df r :
  (pref = "All"%string \/ pref = "Yes"%string \/ pref = "No"%string) ->
  In r (filter_compliance pref df) <->
  In r df /\ (pref = "All"%string \/ Compliance r = pref).
Proof.
  intros Hp. unfold filter_compliance.
  destruct Hp as [E|[E|E]]; subst; simpl.
  - tauto.
  - rewrite filter_In, String.eqb_eq. split; [intros [H1 H2]; auto | intros [H1 [H2|H2]]; [discriminate|auto]].
  - rewrite filter_In, String.eqb_eq. split; [intros [H1 H2]; auto | intros [H1 [H2|H2]]; [discriminate|auto]].
Qed.

(** ** Claims *)

(** C8: the derived [Defect_Rate] is [0] for a row with [Quantity == 0] and
    [Defective_Units / Quantity * 100] otherwise (a null [Defective_Units]
    counting as 0); preprocessing never raises [ZeroDivisionError]. *)
Theorem prepare_defect_rate (raws : list Raw.t) :
  exists df, prepare raws = Ok df /\
    Forall2 (fun r x => Defect_Rate x =
      (if Raw.Quantity r =? 0 then 0
       else (match Raw.Defective_Units r with Some d => d | None => 0 end)
            / inject_Z (Raw.Quantity r) * 100)%Q) raws df.
Proof.
  unfold prepare, impute. rewrite !map_map.
  apply mapM_derive_defect. intros r. simpl. split; reflexivity.
Qed.

(** C9: [recommend_suppliers] on an empty table, or under criteria that
    filter every row out, returns the empty frame [pd.DataFrame()]. *)
Theorem recommend_degenerate_empty :
  (forall cat mp ml md pref, recommend_suppliers [] cat mp ml md pref = empty_frame) /\
  (forall df cat mp ml md pref, filtered_rows df cat mp ml md pref = [] ->
     recommend_suppliers df cat mp ml md pref = empty_frame) /\
  is_empty empty_frame = true.
Proof.
  split; [|split].
  - intros. unfold recommend_suppliers, filtered_rows, filter_thresholds,
      filter_compliance, filter_category.
    destruct (negb _), (String.eqb pref "Yes"), (String.eqb pref "No"); reflexivity.
  - intros df cat mp ml md pref H. unfold recommend_suppliers. rewrite H. reflexivity.
  - reflexivity.
Qed.

(** C5: a row is kept by the filters of [recommend_suppliers] iff its
    category matches case-insensitively (unless "All"): the category and
    the selection are equal after [str_lower], whatever case mapping
    [str_lower] implements; its compliance
    equals the preference (unless "All"), and price, lead time and defect
    rate are each at most their threshold. *)
Theorem filtered_rows_spec df cat mp ml md pref r :
  (pref = "All"%string \/ pref = "Yes"%string \/ pref = "No"%string) ->
  In r (filtered_rows df cat mp ml md pref) <->
  In r df
  /\ (cat = "All"%string \/ str_lower (Item_Category r) = str_lower cat)
  /\ (pref = "All"%string \/ Compliance r = pref)
  /\ (Negotiated_Price r <= mp)%Q
  /\ (exists l, Lead_Time r = Some l /\ inject_Z l <= ml)%Q
  /\ (Defect_Rate r <= md)%Q.
Proof.
  intros Hp. unfold filtered_rows, filter_thresholds.
  rewrite filter_In, threshold_ok_iff, (filter_compliance_In _ _ _ Hp), filter_category_In.
  tauto.
Qed.

(** C6: relaxing the thresholds (raising [max_price], [max_lead_time] or
    [max_defect_rate], any one of them or several) never shrinks the
    filtered set. *)
Theorem filter_monotone df cat pref mp ml md mp' ml' md' :
  (mp <= mp')%Q -> (ml <= ml')%Q -> (md <= md')%Q ->
  (length (filtered_rows df cat mp ml md pref)
   <= length (filtered_rows df cat mp' ml' md' pref))%nat.
Proof.
  intros Hp Hl Hd. unfold filtered_rows, filter_thresholds.
  apply filter_length_mono. intros r. rewrite !threshold_ok_iff.
  intros [H1 [[l [E H2]] H3]]. repeat split.
  - apply (Qle_trans _ mp); assumption.
  - exists l. split; [assumption|]. apply (Qle_trans _ ml); assumption.
  - apply (Qle_trans _ md); assumption.
Qed.

Lemma reference_lead_times_prior (df : list Raw.t) (s : string) :
  reference_lead_times df s = prior_lead_times df s.
Proof.
  induction df as [|r df IH]; [reflexivity|].
  unfold reference_lead_times in *. simpl.
  destruct (Raw.Delivery_Date r) eqn:E; simpl.
  - rewrite IH. unfold lead_time_of. rewrite E. reflexivity.
  - rewrite IH. destruct (String.eqb (Raw.Supplier r) s); reflexivity.
Qed.

Lemma prior_lead_times_convert (raws : list Raw.t) (s : string) :
  prior_lead_times (map convert raws) s = prior_lead_times raws s.
Proof.
  induction raws as [|r raws IH]; [reflexivity|]. simpl. rewrite IH. reflexivity.
Qed.

Lemma prior_lead_times_nil (raws : list Raw.t) (s : string) :
  (forall r', In r' raws -> Raw.Supplier r' = s -> Raw.Delivery_Date r' = None) ->
  prior_lead_times raws s = [].
Proof.
  induction raws as [|r raws IH]; intros H; [reflexivity|]. simpl.
  rewrite IH by (intros r' Hin; apply H; right; exact Hin).
  destruct (String.eqb_spec (Raw.Supplier r) s) as [E|E]; [|reflexivity].
  rewrite (H r (or_introl eq_refl) E). reflexivity.
Qed.

(** Row [i] of the prepared table comes from row [i] of the raw table,
    with the imputed delivery date and the lead time computed from it. *)
Lemma prepare_nth (raws : list Raw.t) (df : list row) (i : nat) (r : Raw.t) :
  prepare raws = Ok df -> nth_error raws i = Some r ->
  exists x, nth_error df i = Some x
    /\ Delivery_Date x = isi_delivery_date (mean_lead_time (map convert raws)) (convert r)
    /\ Lead_Time x = option_map (fun d => d - Raw.Order_Date r)
                       (isi_delivery_date (mean_lead_time (map convert raws)) (convert r)).
Proof.
  intros H Hr. unfold prepare, impute in H.
  set (a := fillna_defective (set_delivery (convert r)
              (isi_delivery_date (mean_lead_time (map convert raws)) (convert r)))).
  assert (Ha : nth_error (map fillna_defective
                 (map (fun r0 => set_delivery r0
                    (isi_delivery_date (mean_lead_time (map convert raws)) r0))
                 (map convert raws))) i = Some a).
  { rewrite !nth_error_map, Hr. reflexivity. }
  destruct (mapM_nth _ _ _ H i a Ha) as [x [Hx Hnth]].
  exists x. split; [exact Hnth|].
  unfold derive in Hx. rewrite defect_rate_of_ok in Hx. simpl in Hx.
  inversion Hx; subst. simpl. split; reflexivity.
Qed.

(** C3: a record with a missing [Delivery_Date] gets
    [Order_Date + round(mean of the supplier's pre-imputation lead times)]
    when its supplier has a record with a delivery date, and stays null
    otherwise; lead times 3, 5, 7 and an order of 2024-01-01 give
    2024-01-06. *)
Theorem prepare_imputes_delivery :
  (forall raws df i r,
     prepare raws = Ok df -> nth_error raws i = Some r -> Raw.Delivery_Date r = None ->
     exists x, nth_error df i = Some x /\
       Delivery_Date x =
         match prior_lead_times raws (Raw.Supplier r) with
         | [] => None
         | ls => Some (Raw.Order_Date r + py_round (mean (map inject_Z ls)))
         end)
  /\ prior_lead_times raws_impute "S" = [3; 5; 7]
  /\ (exists df x, prepare raws_impute = Ok df /\ nth_error df 3%nat = Some x
        /\ Order_Date x = days_from_civil 2024 1 1
        /\ Delivery_Date x = Some (days_from_civil 2024 1 6)).
Proof.
  split; [|split].
  - intros raws df i r H Hr Hd.
    destruct (prepare_nth raws df i r H Hr) as [x [Hx [Hdel _]]].
    exists x. split; [exact Hx|]. rewrite Hdel.
    unfold isi_delivery_date, mean_lead_time. simpl. rewrite Hd.
    rewrite reference_lead_times_prior, prior_lead_times_convert.
    destruct (prior_lead_times raws (Raw.Supplier r)); reflexivity.
  - vm_compute. reflexivity.
  - do 2 eexists. split; [vm_compute; reflexivity|].
    split; [vm_compute; reflexivity|]. split; vm_compute; reflexivity.
Qed.

Lemma prepare_imputes_delivery_witness :
  exists x, nth_error (match prepare raws_impute with Ok df => df | Err _ => [] end) 3%nat = Some x
    /\ Delivery_Date x = Some (days_from_civil 2024 1 6).
Proof.
  destruct (proj1 prepare_imputes_delivery raws_impute
              (match prepare raws_impute with Ok df => df | Err _ => [] end) 3%nat
              (mkraw 4 "S" 10 None (days_from_civil 2024 1 1) None)
              ltac:(vm_compute; reflexivity) ltac:(vm_compute; reflexivity) eq_refl)
    as [x [Hx Hd]].
  exists x. split; [exact Hx|]. rewrite Hd. vm_compute. reflexivity.
Defined.

(** C7 (amended): a record whose [Delivery_Date] stays null (no record of
    its supplier has one) gets a null [Lead_Time]; its [Lead_Time <=
    max_lead_time] comparison is false, so the AND-combined filter drops
    it from every query, without an error. *)
Theorem no_reference_row_excluded raws df i r :
  prepare raws = Ok df -> nth_error raws i = Some r -> Raw.Delivery_Date r = None ->
  (forall r', In r' raws -> Raw.Supplier r' = Raw.Supplier r -> Raw.Delivery_Date r' = None) ->
  exists x, nth_error df i = Some x /\ Delivery_Date x = None /\ Lead_Time x = None
    /\ (forall ml, lead_le (Lead_Time x) ml = false)
    /\ (forall mp ml md, threshold_ok mp ml md x = false)
    /\ (forall cat mp ml md pref, ~ In x (filtered_rows df cat mp ml md pref)).
Proof.
  intros H Hr Hd Hnone.
  destruct (prepare_nth raws df i r H Hr) as [x [Hx [Hdel Hlead]]].
  assert (Hi : isi_delivery_date (mean_lead_time (map convert raws)) (convert r) = None).
  { unfold isi_delivery_date, mean_lead_time. simpl. rewrite Hd.
    rewrite reference_lead_times_prior, prior_lead_times_convert,
      (prior_lead_times_nil raws (Raw.Supplier r) Hnone). reflexivity. }
  rewrite Hi in Hdel, Hlead. simpl in Hlead.
  assert (Ht : forall mp ml md, threshold_ok mp ml md x = false).
  { intros. unfold threshold_ok. rewrite Hlead. simpl. rewrite andb_false_r. reflexivity. }
  exists x. repeat split; auto.
  - intros ml. rewrite Hlead. reflexivity.
  - intros cat mp ml md pref Hin. unfold filtered_rows, filter_thresholds in Hin.
    apply filter_In in Hin. rewrite Ht in Hin. destruct Hin as [_ Hin]. discriminate.
Qed.

(** C7, as stated, is refuted: the null-[Lead_Time] row of [raws_noref]
    passes the price and the defect-rate comparisons. *)
Lemma no_reference_row_passes_price_defect :
  exists x, prepare raws_noref = Ok [x] /\ Lead_Time x = None
    /\ Qle_bool (Negotiated_Price x) 200000 = true
    /\ Qle_bool (Defect_Rate x) 5 = true.
Proof.
  eexists. split; [vm_compute; reflexivity|].
  split; [reflexivity|]. split; vm_compute; reflexivity.
Qed.

(** ** Sorting, grouping and aggregation *)

Section IsortFacts.
Context {A : Type} (cmp : A -> A -> comparison).

Lemma insert_perm (x : A) (l : list A) : Permutation (insert cmp x l) (x :: l).
Proof.
  induction l as [|y l IH]; simpl; [reflexivity|].
  destruct (cmp_le cmp x y); [reflexivity|].
  rewrite IH. apply perm_swap.
Qed.

Lemma isort_perm (l : list A) : Permutation (isort cmp l) l.
Proof.
  induction l as [|x l IH]; simpl; [reflexivity|].
  rewrite insert_perm, IH. reflexivity.
Qed.

Hypothesis cmp_antisym : forall x y, cmp x y = Gt -> cmp y x = Lt.

Lemma insert_sorted (x : A) (l : list A) :
  Sorted (fun a b => cmp a b <> Gt) l -> Sorted (fun a b => cmp a b <> Gt) (insert cmp x l).
Proof.
  induction 1 as [|y l Hs IH Hhd]; simpl.
  - repeat constructor.
  - unfold cmp_le at 1. destruct (cmp x y) eqn:Exy.
    + constructor; [constructor; auto | constructor; congruence].
    + constructor; [constructor; auto | constructor; congruence].
    + apply cmp_antisym in Exy. constructor; [exact IH|].
      destruct l as [|z l]; simpl.
      * constructor. congruence.
      * unfold cmp_le. destruct (cmp x z); constructor;
          solve [congruence | inversion Hhd; assumption].
Qed.

Lemma isort_sorted (l : list A) : Sorted (fun a b => cmp a b <> Gt) (isort cmp l).
Proof.
  induction l as [|x l IH]; simpl; [constructor|]. apply insert_sorted, IH.
Qed.

Hypothesis cmp_eq_sym : forall x y, cmp x y = Eq -> cmp y x = Eq.
Hypothesis cmp_eq_trans : forall x y z, cmp x y = Eq -> cmp y z = Eq -> cmp x z = Eq.

Definition same (k x : A) : bool := match cmp k x with Eq => true | _ => false end.

Lemma filter_same_insert (k x : A) (l : list A) :
  filter (same k) (insert cmp x l) =
  if same k x then x :: filter (same k) l else filter (same k) l.
Proof.
  induction l as [|y l IH]; simpl.
  - destruct (same k x); reflexivity.
  - unfold cmp_le at 1. destruct (cmp x y) eqn:Exy.
    + simpl. destruct (same k x); reflexivity.
    + simpl. destruct (same k x); reflexivity.
    + simpl. rewrite IH.
      unfold same. destruct (cmp k x) eqn:Ekx, (cmp k y) eqn:Eky; try reflexivity.
      exfalso. assert (cmp x y = Eq) by eauto. congruence.
Qed.

(** Stability: the elements equivalent to [k] keep their order. *)
Lemma isort_stable (k : A) (l : list A) :
  filter (same k) (isort cmp l) = filter (same k) l.
Proof.
  induction l as [|x l IH]; simpl; [reflexivity|].
  rewrite filter_same_insert, IH. reflexivity.
Qed.
End IsortFacts.

Lemma string_compare_refl (s : string) : String.compare s s = Eq.
Proof.
  pose proof (String.compare_antisym s s) as H.
  destruct (String.compare s s); simpl in H; congruence.
Qed.

Lemma key_compare_refl (k : list string) : key_compare k k = Eq.
Proof.
  induction k as [|x k IH]; simpl; [reflexivity|]. rewrite string_compare_refl. exact IH.
Qed.

Lemma key_compare_antisym (a b : list string) : key_compare a b = CompOpp (key_compare b a).
Proof.
  revert b; induction a as [|x a IH]; intros [|y b]; simpl; try reflexivity.
  rewrite (String.compare_antisym x y).
  destruct (String.compare y x); simpl; auto.
Qed.

Lemma uniq_In {A} (eqb : A -> A -> bool) (l : list A) (x : A) :
  In x (uniq eqb l) -> In x l.
Proof.
  unfold uniq.
  assert (G : forall acc, In x (fold_left (fun acc x => if existsb (eqb x) acc then acc else acc ++ [x]) l acc)
                -> In x acc \/ In x l).
  { induction l as [|y l IH]; intros acc H; simpl in *; [auto|].
    apply IH in H. destruct H as [H|H]; [|auto].
    destruct (existsb (eqb y) acc); [auto|].
    apply in_app_or in H. destruct H as [H|[H|[]]]; auto. }
  intros H. destruct (G [] H) as [[]|H']; exact H'.
Qed.

(** Every group of the result comes from a row of the filtered table. *)
Lemma merged_groups_In (filtered : list row) (cat pref : string) (a : Res.t) :
  In a (merged_groups filtered cat pref) ->
  exists r, In r filtered /\ a = merge_status (status_values filtered) (crosstab cat pref filtered)
                                  (aggregate cat pref filtered (group_key cat pref r)).
Proof.
  unfold merged_groups. rewrite map_map. intros H.
  apply in_map_iff in H. destruct H as [k [<- Hk]].
  unfold group_keys in Hk. apply (Permutation_in _ (isort_perm _ _)) in Hk.
  apply uniq_In, in_map_iff in Hk. destruct Hk as [r [<- Hr]].
  exists r. split; [exact Hr | reflexivity].
Qed.

Lemma group_rows_self (cat pref : string) (filtered : list row) (r : row) :
  In r filtered -> In r (group_rows cat pref filtered (group_key cat pref r)).
Proof.
  intros H. unfold group_rows. apply filter_In. split; [exact H|].
  unfold key_eqb. rewrite key_compare_refl. reflexivity.
Qed.

Lemma sum_le_length (l : list Q) (b : Q) :
  (forall x, In x l -> x <= b)%Q ->
  (fold_right Qplus 0 l <= inject_Z (Z.of_nat (length l)) * b)%Q.
Proof.
  induction l as [|x l IH]; intros H; cbn [fold_right length].
  - rewrite Qmult_0_l. apply Qle_refl.
  - rewrite Nat2Z.inj_succ, <- Z.add_1_r, inject_Z_plus, Qmult_plus_distr_l, Qmult_1_l.
    rewrite Qplus_comm. apply Qplus_le_compat.
    + apply IH. intros y Hy. apply H. right. exact Hy.
    + apply H. left. reflexivity.
Qed.

(** The mean of a non-empty column bounded by [b] is bounded by [b]. *)
Lemma mean_le (l : list Q) (b : Q) :
  l <> [] -> (forall x, In x l -> x <= b)%Q -> (mean l <= b)%Q.
Proof.
  intros Hne H. unfold mean. apply Qle_shift_div_r.
  - destruct l as [|x l]; [congruence|]. simpl length.
    unfold Qlt. simpl. lia.
  - rewrite Qmult_comm. apply sum_le_length, H.
Qed.

Lemma mean_skipna_le (l : list (option Q)) (b : Q) (o : option Q) :
  In o l -> (forall o, In o l -> exists x, o = Some x /\ x <= b)%Q ->
  exists m, mean_skipna l = Some m /\ (m <= b)%Q.
Proof.
  intros Ho H. unfold mean_skipna.
  set (xs := flat_map (fun o => match o with Some x => [x] | None => [] end) l).
  assert (Hxs : forall x, In x xs -> (x <= b)%Q).
  { intros x Hx. apply in_flat_map in Hx. destruct Hx as [o' [Ho' Hx]].
    destruct (H o' Ho') as [y [-> Hy]]. destruct Hx as [<-|[]]. exact Hy. }
  assert (Hne : xs <> []).
  { destruct (H o Ho) as [y [-> _]]. intros E.
    assert (In y xs) by (apply in_flat_map; exists (Some y); simpl; auto).
    rewrite E in H0. exact H0. }
  destruct xs as [|x xs'] eqn:E; [congruence|].
  exists (mean (x :: xs')). split; [reflexivity|]. apply mean_le; auto.
Qed.

Lemma rows_recommend df cat mp ml md pref :
  rows (recommend_suppliers df cat mp ml md pref) =
  isort sort_compare (merged_groups (filtered_rows df cat mp ml md pref) cat pref).
Proof.
  unfold recommend_suppliers. destruct (filtered_rows df cat mp ml md pref); reflexivity.
Qed.

Lemma Qcompare_eq_trans (x y z : Q) : (x ?= y)%Q = Eq -> (y ?= z)%Q = Eq -> (x ?= z)%Q = Eq.
Proof. rewrite <- !Qeq_alt. apply Qeq_trans. Qed.

Lemma opt_compare_antisym (a b : option Q) : opt_compare b a = CompOpp (opt_compare a b).
Proof.
  destruct a as [x|], b as [y|]; simpl; try reflexivity.
  symmetry. apply Qcompare_antisym.
Qed.

Lemma opt_compare_eq_trans (a b c : option Q) :
  opt_compare a b = Eq -> opt_compare b c = Eq -> opt_compare a c = Eq.
Proof.
  destruct a as [x|], b as [y|], c as [z|]; simpl; try congruence.
  apply Qcompare_eq_trans.
Qed.

Lemma sort_compare_antisym (a b : Res.t) : sort_compare b a = CompOpp (sort_compare a b).
Proof.
  unfold sort_compare.
  rewrite <- (Qcompare_antisym (Res.Defect_Rate_pct a)), opt_compare_antisym,
    <- (Qcompare_antisym (Res.Avg_Negotiated_Price a)).
  destruct (Res.Defect_Rate_pct a ?= Res.Defect_Rate_pct b)%Q; simpl; try reflexivity.
  destruct (opt_compare (Res.Lead_Time a) (Res.Lead_Time b)); reflexivity.
Qed.

Lemma sort_compare_eq_trans (a b c : Res.t) :
  sort_compare a b = Eq -> sort_compare b c = Eq -> sort_compare a c = Eq.
Proof.
  unfold sort_compare.
  destruct (Res.Defect_Rate_pct a ?= Res.Defect_Rate_pct b)%Q eqn:E1; try discriminate.
  destruct (Res.Defect_Rate_pct b ?= Res.Defect_Rate_pct c)%Q eqn:E2; try discriminate.
  rewrite (Qcompare_eq_trans _ _ _ E1 E2).
  destruct (opt_compare (Res.Lead_Time a) (Res.Lead_Time b)) eqn:E3; try discriminate.
  destruct (opt_compare (Res.Lead_Time b) (Res.Lead_Time c)) eqn:E4; try discriminate.
  rewrite (opt_compare_eq_trans _ _ _ E3 E4).
  apply Qcompare_eq_trans.
Qed.

Lemma merged_groups_keys (F : list row) (cat pref : string) :
  map Res.key (merged_groups F cat pref) = group_keys cat pref F.
Proof.
  unfold merged_groups. rewrite !map_map. apply map_id.
Qed.

(** C2: the result rows are in ascending (defect rate, lead time, average
    price) order; they are the groups in group-key order, reordered by a
    stable sort, so rows with equal sort keys keep the group-key order;
    on groups with (defect, lead) = (5, 3), (2, 1), (2, 4) the output is
    (2, 1), (2, 4), (5, 3). *)
Theorem recommend_sorted_stable df cat mp ml md pref :
  let t := recommend_suppliers df cat mp ml md pref in
  let pre := merged_groups (filtered_rows df cat mp ml md pref) cat pref in
  Sorted (fun a b => sort_compare a b <> Gt) (rows t)
  /\ Permutation (rows t) pre
  /\ (forall k, filter (same sort_compare k) (rows t) = filter (same sort_compare k) pre)
  /\ Sorted (fun a b => key_compare a b <> Gt) (map Res.key pre)
  /\ map (fun a => (Res.Defect_Rate_pct a, Res.Lead_Time a))
       (rows (recommend_suppliers df_sort "All" 200000 10 10 "All"))
     = [(2%Q, Some 1%Q); (2%Q, Some 4%Q); (5%Q, Some 3%Q)].
Proof.
  intros t pre. unfold t. rewrite rows_recommend. fold pre.
  split; [|split; [|split; [|split]]].
  - apply isort_sorted. intros x y H. rewrite sort_compare_antisym, H. reflexivity.
  - apply isort_perm.
  - intros k. apply isort_stable.
    + intros x y H. rewrite sort_compare_antisym, H. reflexivity.
    + apply sort_compare_eq_trans.
  - unfold pre. rewrite merged_groups_keys. apply isort_sorted.
    intros x y H. rewrite key_compare_antisym, H. reflexivity.
  - vm_compute. reflexivity.
Qed.

(** C4: a non-empty result is keyed by [group_cols]: always [Supplier],
    [Item_Category] exactly when [item_category == "All"], [Compliance]
    exactly when [compliance_preference == "All"]; each row's key is the
    key of some filtered row. *)
Theorem recommend_group_key df cat mp ml md pref :
  is_empty (recommend_suppliers df cat mp ml md pref) = false ->
  let t := recommend_suppliers df cat mp ml md pref in
  key_cols t = group_cols cat pref
  /\ In "Supplier"%string (key_cols t)
  /\ (In "Item_Category"%string (key_cols t) <-> cat = "All"%string)
  /\ (In "Compliance"%string (key_cols t) <-> pref = "All"%string)
  /\ Forall (fun a => exists r, In r (filtered_rows df cat mp ml md pref)
                                /\ Res.key a = group_key cat pref r) (rows t)
  /\ group_cols "All" "Yes" = ["Supplier"; "Item_Category"]%string
  /\ group_cols "All" "All" = ["Supplier"; "Item_Category"; "Compliance"]%string.
Proof.
  intros Hne t.
  assert (Hk : key_cols t = group_cols cat pref).
  { unfold t, recommend_suppliers in *.
    destruct (filtered_rows df cat mp ml md pref); [discriminate | reflexivity]. }
  rewrite Hk. split; [reflexivity|].
  split; [|split; [|split; [|split; [|split]]]].
  - left. reflexivity.
  - unfold group_cols. destruct (String.eqb_spec cat "All"), (String.eqb_spec pref "All");
      simpl; intuition congruence.
  - unfold group_cols. destruct (String.eqb_spec cat "All"), (String.eqb_spec pref "All");
      simpl; intuition congruence.
  - apply Forall_forall. intros a Ha. unfold t in Ha. rewrite rows_recommend in Ha.
    apply (Permutation_in _ (isort_perm _ _)) in Ha.
    destruct (merged_groups_In _ _ _ _ Ha) as [r [Hr ->]].
    exists r. split; [exact Hr | reflexivity].
  - reflexivity.
  - reflexivity.
Qed.

Lemma recommend_rows_bounds df cat mp ml md pref :
  Forall (fun a => (Res.Avg_Negotiated_Price a <= mp)%Q
                   /\ (exists l, Res.Lead_Time a = Some l /\ (l <= ml)%Q)
                   /\ (Res.Defect_Rate_pct a <= md)%Q
                   /\ 1 <= Res.Total_Orders a)
    (rows (recommend_suppliers df cat mp ml md pref)).
Proof.
  rewrite rows_recommend. apply Forall_forall. intros a Ha.
  apply (Permutation_in _ (isort_perm _ _)) in Ha.
  destruct (merged_groups_In _ _ _ _ Ha) as [r [Hr ->]].
  set (F := filtered_rows df cat mp ml md pref) in *.
  assert (HF : forall y, In y F -> threshold_ok mp ml md y = true).
  { intros y Hy. unfold F, filtered_rows, filter_thresholds in Hy.
    apply filter_In in Hy. apply Hy. }
  set (g := group_rows cat pref F (group_key cat pref r)).
  assert (Hrg : In r g) by (apply group_rows_self, Hr).
  assert (Hg : forall y, In y g -> threshold_ok mp ml md y = true).
  { intros y Hy. apply HF. unfold g, group_rows in Hy. apply filter_In in Hy. apply Hy. }
  cbn [Res.Avg_Negotiated_Price Res.Lead_Time Res.Defect_Rate_pct Res.Total_Orders
       merge_status aggregate]. fold g.
  split; [|split; [|split]].
  - apply mean_le.
    + destruct g; [destruct Hrg | discriminate].
    + intros x Hx. apply in_map_iff in Hx. destruct Hx as [y [<- Hy]].
      exact (proj1 (proj1 (threshold_ok_iff _ _ _ _) (Hg y Hy))).
  - apply (mean_skipna_le _ _ (option_map inject_Z (Lead_Time r))).
    + apply (in_map (fun y => option_map inject_Z (Lead_Time y))), Hrg.
    + intros o Ho. apply in_map_iff in Ho. destruct Ho as [y [<- Hy]].
      destruct (proj1 (threshold_ok_iff _ _ _ _) (Hg y Hy)) as [_ [[l [E Hl]] _]].
      rewrite E. exists (inject_Z l). split; [reflexivity | exact Hl].
  - apply mean_le.
    + destruct g; [destruct Hrg | discriminate].
    + intros x Hx. apply in_map_iff in Hx. destruct Hx as [y [<- Hy]].
      exact (proj2 (proj2 (proj1 (threshold_ok_iff _ _ _ _) (Hg y Hy)))).
  - destruct g as [|y g']; [destruct Hrg|]. simpl length. lia.
Qed.

(** C10: every row of a result meets the thresholds at the aggregate
    level (means of values that each passed the inclusive filters) and
    counts at least one order. *)
Theorem recommend_rows_within_thresholds df cat mp ml md pref :
  Forall (fun a => (Res.Avg_Negotiated_Price a <= mp)%Q
                   /\ (exists l, Res.Lead_Time a = Some l /\ (l <= ml)%Q)
                   /\ (Res.Defect_Rate_pct a <= md)%Q
                   /\ 1 <= Res.Total_Orders a)
    (rows (recommend_suppliers df cat mp ml md pref)).
Proof. apply recommend_rows_bounds. Qed.

Lemma alasan_list_near mp ml md (a : Res.t) :
  (Qabs (Res.Defect_Rate_pct a - md) <= 2)%Q ->
  exists rest,
    alasan_list mp ml md a
    = String.append "Defect Rate mendekati batas ("
        (String.append (fmt1 (Res.Defect_Rate_pct a)) "%)") :: rest
    /\ ~ In (String.append "Defect Rate " (String.append (fmt1 (Res.Defect_Rate_pct a)) "%")) rest.
Proof.
  intros H. unfold alasan_list.
  apply Qle_bool_iff in H. rewrite H.
  eexists. split; [reflexivity|].
  intros Hin. apply in_app_or in Hin. destruct Hin as [Hin|Hin].
  - destruct (negb (Qle_bool _ mp)); simpl in Hin; [|destruct Hin].
    destruct Hin as [E|[]]. discriminate E.
  - destruct (Res.Lead_Time a) as [l|]; [|destruct Hin].
    destruct (negb (Qle_bool l ml)); simpl in Hin; [|destruct Hin].
    destruct Hin as [E|[]]. discriminate E.
Qed.

Lemma alasan_list_exceeds mp ml md (a : Res.t) :
  ~ (Qabs (Res.Defect_Rate_pct a - md) <= 2)%Q -> (md < Res.Defect_Rate_pct a)%Q ->
  exists rest,
    alasan_list mp ml md a
    = String.append "Defect Rate " (String.append (fmt1 (Res.Defect_Rate_pct a)) "%") :: rest.
Proof.
  intros Hn Hlt. unfold alasan_list.
  destruct (Qle_bool (Qabs (Res.Defect_Rate_pct a - md)) 2) eqn:E.
  - apply Qle_bool_iff in E. contradiction.
  - destruct (Qle_bool (Res.Defect_Rate_pct a) md) eqn:E2.
    + apply Qle_bool_iff in E2. exfalso. apply (Qlt_not_le _ _ Hlt E2).
    + eexists. reflexivity.
Qed.

(** C1 (amended): the near-threshold check comes first for every row; a
    row not within 2 of [max_defect_rate] and above it gets
    "Defect Rate X%"; in fallback mode every row above the original
    threshold is within 2 of it, so gets the near-threshold reason; with
    [max_defect_rate = 5] the rows at 6.5 and 5.5 both get
    "Defect Rate mendekati batas (...)". *)
Theorem alasan_near_checked_first :
  (forall mp ml md (a : Res.t),
     (Qabs (Res.Defect_Rate_pct a - md) <= 2)%Q ->
     exists rest,
       alasan_list mp ml md a
       = String.append "Defect Rate mendekati batas ("
           (String.append (fmt1 (Res.Defect_Rate_pct a)) "%)") :: rest
       /\ ~ In (String.append "Defect Rate "
                  (String.append (fmt1 (Res.Defect_Rate_pct a)) "%")) rest)
  /\ (forall mp ml md (a : Res.t),
        ~ (Qabs (Res.Defect_Rate_pct a - md) <= 2)%Q -> (md < Res.Defect_Rate_pct a)%Q ->
        exists rest,
          alasan_list mp ml md a
          = String.append "Defect Rate "
              (String.append (fmt1 (Res.Defect_Rate_pct a)) "%") :: rest)
  /\ (forall df cat mp ml md pref t cs,
        advise df cat mp ml md pref = Alternatives t cs ->
        cs = map (alasan mp ml md) (rows t)
        /\ Forall (fun a => (md < Res.Defect_Rate_pct a)%Q ->
              exists rest,
                alasan_list mp ml md a
                = String.append "Defect Rate mendekati batas ("
                    (String.append (fmt1 (Res.Defect_Rate_pct a)) "%)") :: rest)
             (rows t))
  /\ (exists t, advise df_fallback "All" 200000 10 5 "All"
                = Alternatives t ["Defect Rate mendekati batas (5.5%)";
                                  "Defect Rate mendekati batas (6.5%)"]%string
      /\ map Res.Defect_Rate_pct (rows t) = [11 # 2; 13 # 2]%Q).
Proof.
  split; [|split; [|split]].
  - apply alasan_list_near.
  - apply alasan_list_exceeds.
  - intros df cat mp ml md pref t cs H. unfold advise in H.
    destruct (is_empty (recommend_suppliers df cat mp ml md pref)); [|discriminate].
    destruct (is_empty _) eqn:E; [discriminate|]. inversion H; subst. split; [reflexivity|].
    pose proof (recommend_rows_bounds df cat (mp * (3 # 2)) (ml + 2) (md + 2) pref) as B.
    eapply Forall_impl; [|exact B]. simpl.
    intros a [_ [_ [Hd _]]] Hlt.
    destruct (alasan_list_near mp ml md a) as [rest [Hr _]]; [|exists rest; exact Hr].
    apply Qabs_diff_Qle_condition. split; lra.
  - eexists. split; [vm_compute; reflexivity | vm_compute; reflexivity].
Qed.

(** ** Further properties of the preprocessing *)

Lemma mapM_length {A B} (f : A -> result B) (l : list A) (df : list B) :
  mapM f l = Ok df -> length df = length l.
Proof.
  revert df; induction l as [|x xs IH]; intros df H.
  - inversion H. reflexivity.
  - simpl in H. destruct (f x) as [y|e]; [|discriminate]. simpl in H.
    destruct (mapM f xs) as [ys|e] eqn:Em; [|discriminate]. simpl in H.
    inversion H; subst. simpl. f_equal. apply IH. reflexivity.
Qed.

Lemma mapM_In {A B} (f : A -> result B) (l : list A) (df : list B) :
  mapM f l = Ok df -> forall x, In x df -> exists a, In a l /\ f a = Ok x.
Proof.
  revert df; induction l as [|y ys IH]; intros df H x Hx.
  - inversion H; subst. destruct Hx.
  - simpl in H. destruct (f y) as [b|e] eqn:Ef; [|discriminate]. simpl in H.
    destruct (mapM f ys) as [bs|e] eqn:Em; [|discriminate]. simpl in H.
    inversion H; subst. destruct Hx as [<-|Hx].
    + exists y. split; [left; reflexivity | exact Ef].
    + destruct (IH bs eq_refl x Hx) as [a [Ha Hfa]]. exists a. split; [right|]; assumption.
Qed.

Lemma derive_ok (r : Raw.t) :
  derive r =
  Ok (mkrow (Raw.PO_ID r) (Raw.Supplier r) (Raw.Item_Category r) (Raw.Compliance r)
        (Raw.Order_Status r) (Raw.Quantity r)
        (match Raw.Defective_Units r with Some d => d | None => 0%Q end)
        (Raw.Unit_Price r) (Raw.Negotiated_Price r) (Raw.Order_Date r) (Raw.Delivery_Date r)
        (lead_time_of r)
        (if Raw.Quantity r =? 0 then 0
         else (match Raw.Defective_Units r with Some d => d | None => 0 end)
              / inject_Z (Raw.Quantity r) * 100)%Q
        ((1 - Raw.Negotiated_Price r / Raw.Unit_Price r) * 100)%Q).
Proof. unfold derive. rewrite defect_rate_of_ok. reflexivity. Qed.

(** Row [i] of the prepared table is the derived row of raw row [i]. *)
Lemma prepare_nth_row (raws : list Raw.t) (df : list row) (i : nat) (r : Raw.t) :
  prepare raws = Ok df -> nth_error raws i = Some r ->
  exists x, nth_error df i = Some x
    /\ derive (fillna_defective (set_delivery (convert r)
         (isi_delivery_date (mean_lead_time (map convert raws)) (convert r)))) = Ok x.
Proof.
  intros H Hr. unfold prepare, impute in H.
  edestruct (mapM_nth _ _ _ H i) as [x [Hx Hn]];
    [rewrite !nth_error_map, Hr; reflexivity|].
  exists x. split; eassumption.
Qed.

Lemma mean_lead_time_convert (raws : list Raw.t) (s : string) :
  mean_lead_time (map convert raws) s =
  match prior_lead_times raws s with [] => None | ls => Some (mean (map inject_Z ls)) end.
Proof.
  unfold mean_lead_time. rewrite reference_lead_times_prior, prior_lead_times_convert.
  reflexivity.
Qed.

Lemma sum_ge_length (l : list Q) (b : Q) :
  (forall x, In x l -> b <= x)%Q ->
  (inject_Z (Z.of_nat (length l)) * b <= fold_right Qplus 0 l)%Q.
Proof.
  induction l as [|x l IH]; intros H; cbn [fold_right length].
  - rewrite Qmult_0_l. apply Qle_refl.
  - rewrite Nat2Z.inj_succ, <- Z.add_1_r, inject_Z_plus, Qmult_plus_distr_l, Qmult_1_l.
    rewrite Qplus_comm. apply Qplus_le_compat.
    + apply H. left. reflexivity.
    + apply IH. intros y Hy. apply H. right. exact Hy.
Qed.

Lemma mean_ge (l : list Q) (b : Q) :
  l <> [] -> (forall x, In x l -> b <= x)%Q -> (b <= mean l)%Q.
Proof.
  intros Hne H. unfold mean. apply Qle_shift_div_l.
  - destruct l as [|x l]; [congruence|]. simpl length. unfold Qlt. simpl. lia.
  - rewrite Qmult_comm. apply sum_ge_length, H.
Qed.

Lemma list_min_max (ls : list Z) :
  ls <> [] -> exists lo hi, In lo ls /\ In hi ls /\ forall x, In x ls -> lo <= x <= hi.
Proof.
  induction ls as [|a ls IH]; intros Hne; [congruence|].
  destruct ls as [|b ls'].
  - exists a, a. split; [left; reflexivity|]. split; [left; reflexivity|].
    intros x [<-|[]]. lia.
  - destruct IH as [lo [hi [Hlo [Hhi Hb]]]]; [discriminate|].
    exists (Z.min a lo), (Z.max a hi). split; [|split].
    + destruct (Z.le_ge_cases a lo); [rewrite Z.min_l by lia; left; reflexivity
                                     | rewrite Z.min_r by lia; right; exact Hlo].
    + destruct (Z.le_ge_cases a hi); [rewrite Z.max_r by lia; right; exact Hhi
                                     | rewrite Z.max_l by lia; left; reflexivity].
    + intros x [<-|Hx]; [lia|]. specialize (Hb x Hx). lia.
Qed.

Lemma py_round_cases (q : Q) :
  py_round q = Qfloor q \/ (py_round q = Qfloor q + 1 /\ (inject_Z (Qfloor q) < q)%Q).
Proof.
  unfold py_round.
  destruct (Qle_bool (q - inject_Z (Qfloor q)) (1 # 2)) eqn:E1; simpl.
  - destruct (Qeq_bool (q - inject_Z (Qfloor q)) (1 # 2)) eqn:E2; [|left; reflexivity].
    apply Qeq_bool_iff in E2.
    destruct (Z.even (Qfloor q)); [left; reflexivity|].
    right. split; [reflexivity|]. lra.
  - right. split; [reflexivity|].
    assert (Hn : ~ (q - inject_Z (Qfloor q) <= 1 # 2)%Q).
    { intros Hle. apply Qle_bool_iff in Hle. congruence. }
    apply Qnot_le_lt in Hn. lra.
Qed.

(** Rounding a value lying between two integers stays between them. *)
Lemma py_round_between (lo hi : Z) (q : Q) :
  (inject_Z lo <= q)%Q -> (q <= inject_Z hi)%Q -> lo <= py_round q <= hi.
Proof.
  intros Hlo Hhi.
  pose proof (Qfloor_le q) as F1. pose proof (Qlt_floor q) as F2.
  assert (Hf : lo <= Qfloor q).
  { assert (lo < Qfloor q + 1); [|lia].
    rewrite Zlt_Qlt. apply (Qle_lt_trans _ q); assumption. }
  destruct (py_round_cases q) as [E|[E Hlt]]; rewrite E; split; try lia.
  - rewrite Zle_Qle. apply (Qle_trans _ q); assumption.
  - assert (Qfloor q < hi); [|lia].
    rewrite Zlt_Qlt. apply (Qlt_le_trans _ q); assumption.
Qed.

(** The lead time given to an imputed row lies between the smallest and
    the largest reference lead time of its supplier. *)
Theorem imputed_lead_time_between raws df i r :
  prepare raws = Ok df -> nth_error raws i = Some r -> Raw.Delivery_Date r = None ->
  prior_lead_times raws (Raw.Supplier r) <> [] ->
  exists x l lo hi, nth_error df i = Some x /\ Lead_Time x = Some l
    /\ In lo (prior_lead_times raws (Raw.Supplier r))
    /\ In hi (prior_lead_times raws (Raw.Supplier r))
    /\ lo <= l <= hi.
Proof.
  intros H Hr Hd Hne. destruct (prepare_nth_row raws df i r H Hr) as [x [Hx Hx']].
  rewrite derive_ok in Hx'. injection Hx' as Hxe.
  destruct (list_min_max _ Hne) as [lo [hi [Hlo [Hhi Hb]]]].
  set (ls := prior_lead_times raws (Raw.Supplier r)) in *.
  assert (Hm : mean_lead_time (map convert raws) (Raw.Supplier r)
               = Some (mean (map inject_Z ls))).
  { rewrite mean_lead_time_convert. fold ls. destruct ls; [congruence | reflexivity]. }
  exists x, (py_round (mean (map inject_Z ls))), lo, hi.
  split; [exact Hx|]. split.
  - rewrite <- Hxe. simpl. unfold isi_delivery_date, lead_time_of. simpl. rewrite Hd, Hm.
    simpl. f_equal. lia.
  - split; [exact Hlo|]. split; [exact Hhi|].
    assert (Hne' : map inject_Z ls <> []) by (destruct ls; [congruence | discriminate]).
    apply py_round_between.
    + apply mean_ge; [exact Hne'|]. intros q Hq. apply in_map_iff in Hq.
      destruct Hq as [z [<- Hz]]. rewrite <- Zle_Qle. apply (Hb z Hz).
    + apply mean_le; [exact Hne'|]. intros q Hq. apply in_map_iff in Hq.
      destruct Hq as [z [<- Hz]]. rewrite <- Zle_Qle. apply (Hb z Hz).
Qed.

Lemma imputed_lead_time_between_witness :
  exists x l lo hi, nth_error (prepared raws_impute) 3%nat = Some x /\ Lead_Time x = Some l
    /\ In lo [3; 5; 7] /\ In hi [3; 5; 7] /\ lo <= l <= hi.
Proof.
  destruct (imputed_lead_time_between raws_impute (prepared raws_impute) 3%nat
              (mkraw 4 "S" 10 None (days_from_civil 2024 1 1) None)
              ltac:(vm_compute; reflexivity) ltac:(vm_compute; reflexivity) eq_refl
              ltac:(vm_compute; discriminate)) as [x [l [lo [hi H]]]].
  exists x, l, lo, hi. exact H.
Defined.

Lemma prior_lead_times_In (df : list Raw.t) (r : Raw.t) (d : Z) :
  In r df -> Raw.Delivery_Date r = Some d -> prior_lead_times df (Raw.Supplier r) <> [].
Proof.
  intros Hr Hd E.
  assert (Hin : In (d - Raw.Order_Date r) (prior_lead_times df (Raw.Supplier r))).
  { apply in_flat_map. exists r. split; [exact Hr|].
    rewrite String.eqb_refl, Hd. left. reflexivity. }
  rewrite E in Hin. exact Hin.
Qed.

Lemma mean_lead_time_None (df : list Raw.t) (s : string) :
  mean_lead_time df s = None <-> prior_lead_times df s = [].
Proof.
  unfold mean_lead_time. rewrite reference_lead_times_prior.
  destruct (prior_lead_times df s); split; congruence.
Qed.

(** A supplier without reference lead time still has none after imputation. *)
Lemma mean_lead_time_impute_None (df : list Raw.t) (s : string) :
  mean_lead_time df s = None -> mean_lead_time (impute df) s = None.
Proof.
  intros H. apply mean_lead_time_None. apply prior_lead_times_nil.
  intros r' Hr' Hs. unfold impute in Hr'. apply in_map_iff in Hr'.
  destruct Hr' as [r0 [<- Hr0]]. simpl in Hs |- *. subst s.
  unfold isi_delivery_date. rewrite H.
  destruct (Raw.Delivery_Date r0) as [d|] eqn:Hd; [|reflexivity].
  exfalso. apply (prior_lead_times_In df r0 d Hr0 Hd). apply mean_lead_time_None, H.
Qed.

(** Running the imputation of lines 18-29 a second time changes nothing. *)
Theorem impute_idempotent (df : list Raw.t) : impute (impute df) = impute df.
Proof.
  change (impute (impute df)) with
    (map (fun r => set_delivery r (isi_delivery_date (mean_lead_time (impute df)) r))
       (impute df)).
  transitivity (map (fun r => r) (impute df)); [|apply map_id].
  apply map_ext_in. intros r' Hr'.
  unfold impute in Hr'. apply in_map_iff in Hr'. destruct Hr' as [r [<- Hr]].
  remember (isi_delivery_date (mean_lead_time df) r) as v eqn:Hv.
  assert (Dv : Raw.Delivery_Date (set_delivery r v) = v) by (destruct r; reflexivity).
  assert (Sv : Raw.Supplier (set_delivery r v) = Raw.Supplier r) by (destruct r; reflexivity).
  assert (E : isi_delivery_date (mean_lead_time (impute df)) (set_delivery r v) = v).
  { unfold isi_delivery_date. rewrite Dv, Sv. destruct v as [d|]; [reflexivity|].
    unfold isi_delivery_date in Hv. destruct (Raw.Delivery_Date r); [discriminate|].
    destruct (mean_lead_time df (Raw.Supplier r)) eqn:Hm; [discriminate|].
    rewrite (mean_lead_time_impute_None df _ Hm). reflexivity. }
  rewrite E. destruct r; reflexivity.
Qed.

(** When [0 <= Defective_Units <= Quantity] (a null count read as 0), the
    derived [Defect_Rate] is a percentage in [0, 100]. *)
Theorem prepare_defect_rate_bounds raws df i r :
  prepare raws = Ok df -> nth_error raws i = Some r ->
  (0 <= match Raw.Defective_Units r with Some d => d | None => 0 end)%Q ->
  (match Raw.Defective_Units r with Some d => d | None => 0 end
     <= inject_Z (Raw.Quantity r))%Q ->
  exists x, nth_error df i = Some x /\ (0 <= Defect_Rate x)%Q /\ (Defect_Rate x <= 100)%Q.
Proof.
  intros H Hr H0 H1. destruct (prepare_nth_row raws df i r H Hr) as [x [Hx Hx']].
  rewrite derive_ok in Hx'. injection Hx' as Hxe.
  exists x. split; [exact Hx|]. rewrite <- Hxe. simpl.
  set (du := match Raw.Defective_Units r with Some d => d | None => 0%Q end) in *.
  destruct (Z.eqb_spec (Raw.Quantity r) 0) as [E|E].
  - split; [apply Qle_refl | apply Qle_bool_iff; reflexivity].
  - assert (Hq : (0 < inject_Z (Raw.Quantity r))%Q).
    { change 0%Q with (inject_Z 0). rewrite <- Zlt_Qlt.
      assert (0 <= Raw.Quantity r); [|lia].
      rewrite Zle_Qle. apply (Qle_trans _ du); assumption. }
    assert (Hlo : (0 <= du / inject_Z (Raw.Quantity r))%Q).
    { apply Qle_shift_div_l; [exact Hq|]. rewrite Qmult_0_l. exact H0. }
    assert (Hhi : (du / inject_Z (Raw.Quantity r) <= 1)%Q).
    { apply Qle_shift_div_r; [exact Hq|]. rewrite Qmult_1_l. exact H1. }
    set (y := (du / inject_Z (Raw.Quantity r))%Q) in *. split; lra.
Qed.

Lemma prepare_defect_rate_bounds_witness :
  exists x, nth_error (prepared raws_impute) 3%nat = Some x
    /\ (0 <= Defect_Rate x)%Q /\ (Defect_Rate x <= 100)%Q.
Proof.
  apply (prepare_defect_rate_bounds raws_impute (prepared raws_impute) 3%nat
           (mkraw 4 "S" 10 None (days_from_civil 2024 1 1) None)).
  - vm_compute. reflexivity.
  - vm_compute. reflexivity.
  - apply Qle_refl.
  - apply Qle_bool_iff. reflexivity.
Defined.

(** ** Further properties of [recommend_suppliers] *)

Section Uniq.
Context {A : Type} (eqb : A -> A -> bool).
Hypothesis eqb_spec : forall a b, eqb a b = true <-> a = b.

Lemma uniq_NoDup (l : list A) : NoDup (uniq eqb l).
Proof.
  unfold uniq.
  assert (G : forall acc, NoDup acc ->
     NoDup (fold_left (fun acc x => if existsb (eqb x) acc then acc else acc ++ [x]) l acc)).
  { induction l as [|y l IH]; intros acc H; simpl; [exact H|].
    apply IH. destruct (existsb (eqb y) acc) eqn:E; [exact H|].
    apply (Permutation_NoDup (Permutation_cons_append acc y)).
    constructor; [|exact H]. intros Hin.
    assert (existsb (eqb y) acc = true) as E'.
    { apply existsb_exists. exists y. split; [exact Hin | apply eqb_spec; reflexivity]. }
    congruence. }
  apply G. constructor.
Qed.

Lemma uniq_complete (l : list A) (x : A) : In x l -> In x (uniq eqb l).
Proof.
  unfold uniq.
  assert (G : forall acc, In x acc \/ In x l ->
     In x (fold_left (fun acc x => if existsb (eqb x) acc then acc else acc ++ [x]) l acc)).
  { induction l as [|y l IH]; intros acc H; simpl.
    - destruct H as [H|[]]; exact H.
    - apply IH. destruct (existsb (eqb y) acc) eqn:E.
      + destruct H as [H|[E'|H]].
        * left. exact H.
        * left. subst y. apply existsb_exists in E. destruct E as [z [Hz Ez]].
          apply eqb_spec in Ez. subst z. exact Hz.
        * right. exact H.
      + destruct H as [H|[E'|H]].
        * left. apply in_or_app. left. exact H.
        * left. apply in_or_app. right. left. exact E'.
        * right. exact H. }
  intros H. apply G. right. exact H.
Qed.
End Uniq.

Lemma key_compare_eq (a b : list string) : key_compare a b = Eq -> a = b.
Proof.
  revert b; induction a as [|x a IH]; intros [|y b]; simpl; try discriminate; [reflexivity|].
  destruct (String.compare x y) eqn:E; try discriminate.
  intros H. apply String.compare_eq_iff in E. subst y. f_equal. apply IH, H.
Qed.

Lemma key_eqb_spec (a b : list string) : key_eqb a b = true <-> a = b.
Proof.
  unfold key_eqb. split.
  - destruct (key_compare a b) eqn:E; try discriminate. intros _. apply key_compare_eq, E.
  - intros ->. rewrite key_compare_refl. reflexivity.
Qed.

Lemma group_keys_NoDup (cat pref : string) (F : list row) : NoDup (group_keys cat pref F).
Proof.
  unfold group_keys. apply (Permutation_NoDup (Permutation_sym (isort_perm _ _))).
  apply uniq_NoDup, key_eqb_spec.
Qed.

Lemma group_keys_complete (cat pref : string) (F : list row) (r : row) :
  In r F -> In (group_key cat pref r) (group_keys cat pref F).
Proof.
  intros H. unfold group_keys. apply (Permutation_in _ (Permutation_sym (isort_perm _ _))).
  apply (uniq_complete _ key_eqb_spec). apply in_map, H.
Qed.

Lemma status_values_NoDup (F : list row) : NoDup (status_values F).
Proof.
  unfold status_values. apply (Permutation_NoDup (Permutation_sym (isort_perm _ _))).
  apply uniq_NoDup, String.eqb_eq.
Qed.

Lemma status_values_complete (F : list row) (r : row) :
  In r F -> In (Order_Status r) (status_values F).
Proof.
  intros H. unfold status_values. apply (Permutation_in _ (Permutation_sym (isort_perm _ _))).
  apply (uniq_complete _ String.eqb_eq). apply in_map, H.
Qed.

Lemma status_values_sound (F : list row) (s : string) :
  In s (status_values F) -> exists r, In r F /\ Order_Status r = s.
Proof.
  unfold status_values. intros H.
  apply (Permutation_in _ (isort_perm _ _)), uniq_In, in_map_iff in H.
  destruct H as [r [E Hr]]. exists r. split; assumption.
Qed.

Lemma status_values_sorted (F : list row) :
  Sorted (fun a b => String.compare a b <> Gt) (status_values F).
Proof.
  apply isort_sorted. intros x y H. rewrite String.compare_antisym, H. reflexivity.
Qed.

Lemma zsum_map_add {B} (g h : B -> Z) (l : list B) :
  fold_right Z.add 0 (map (fun k => g k + h k) l)
  = fold_right Z.add 0 (map g l) + fold_right Z.add 0 (map h l).
Proof. induction l as [|x l IH]; simpl; lia. Qed.

Lemma zsum_perm (l l' : list Z) :
  Permutation l l' -> fold_right Z.add 0 l = fold_right Z.add 0 l'.
Proof. induction 1; simpl; lia. Qed.

Lemma length_zsum {B} (g : list B) :
  Z.of_nat (length g) = fold_right Z.add 0 (map (fun _ => 1) g).
Proof. induction g as [|x g IH]; simpl length; cbn [map fold_right]; lia. Qed.

Section Partition.
Context {A K : Type} (f : A -> K) (eqb : K -> K -> bool).
Hypothesis eqb_spec : forall a b, eqb a b = true <-> a = b.

Lemma indicator_sum (x : A) (w : Z) (ks : list K) :
  NoDup ks -> In (f x) ks ->
  fold_right Z.add 0 (map (fun k => if eqb (f x) k then w else 0) ks) = w.
Proof.
  induction ks as [|k ks IH]; intros Hnd Hin; [destruct Hin|].
  apply NoDup_cons_iff in Hnd as [Hk Hnd']. cbn [map fold_right].
  destruct (eqb (f x) k) eqn:E.
  - apply eqb_spec in E. subst k.
    assert (Z0 : fold_right Z.add 0 (map (fun k => if eqb (f x) k then w else 0) ks) = 0).
    { clear IH Hin Hnd'. induction ks as [|k ks IH']; [reflexivity|]. cbn [map fold_right].
      destruct (eqb (f x) k) eqn:E'.
      - apply eqb_spec in E'. subst k. exfalso. apply Hk. left. reflexivity.
      - rewrite IH'; [reflexivity|]. intros H. apply Hk. right. exact H. }
    lia.
  - destruct Hin as [Hin|Hin].
    + rewrite Hin, (proj2 (eqb_spec _ _) eq_refl) in E. discriminate.
    + rewrite IH; auto.
Qed.

(** Summing a weight over the blocks of a partition by key gives its total. *)
Lemma partition_sum (w : A -> Z) (ks : list K) (l : list A) :
  NoDup ks -> (forall x, In x l -> In (f x) ks) ->
  fold_right Z.add 0
    (map (fun k => fold_right Z.add 0 (map w (filter (fun x => eqb (f x) k) l))) ks)
  = fold_right Z.add 0 (map w l).
Proof.
  intros Hnd. induction l as [|x l IH]; intros Hl.
  - cbn [filter map fold_right]. clear Hnd Hl. induction ks as [|k ks IHk]; [reflexivity|].
    cbn [map fold_right]. rewrite IHk. reflexivity.
  - rewrite (map_ext _ (fun k => (if eqb (f x) k then w x else 0)
                 + fold_right Z.add 0 (map w (filter (fun y => eqb (f y) k) l)))).
    + rewrite zsum_map_add, indicator_sum, IH.
      * cbn [map fold_right]. reflexivity.
      * intros y Hy. apply Hl. right. exact Hy.
      * exact Hnd.
      * apply Hl. left. reflexivity.
    + intros k. cbn [filter]. destruct (eqb (f x) k); cbn [map fold_right]; lia.
Qed.
End Partition.

Lemma find_crosstab (h : list string -> list Z) (ks : list (list string)) (k : list string) :
  In k ks ->
  find (fun p => key_eqb (fst p) k) (map (fun k' => (k', h k')) ks) = Some (k, h k).
Proof.
  induction ks as [|k' ks IH]; intros H; [destruct H|]. simpl.
  destruct (key_eqb k' k) eqn:E.
  - apply key_eqb_spec in E. subst k'. reflexivity.
  - destruct H as [H|H].
    + subst k'. rewrite (proj2 (key_eqb_spec k k) eq_refl) in E. discriminate.
    + apply IH, H.
Qed.

Lemma rows_keys_perm df cat mp ml md pref :
  Permutation (map Res.key (rows (recommend_suppliers df cat mp ml md pref)))
    (group_keys cat pref (filtered_rows df cat mp ml md pref)).
Proof.
  rewrite rows_recommend, <- merged_groups_keys. apply Permutation_map, isort_perm.
Qed.

Lemma is_empty_recommend df cat mp ml md pref :
  is_empty (recommend_suppliers df cat mp ml md pref) = true
  <-> filtered_rows df cat mp ml md pref = [].
Proof.
  split; [|intros H; unfold recommend_suppliers; rewrite H; reflexivity].
  intros H. destruct (filtered_rows df cat mp ml md pref) as [|r F] eqn:EF; [reflexivity|].
  exfalso.
  assert (Hin : In (group_key cat pref r) (map Res.key (rows (recommend_suppliers df cat mp ml md pref)))).
  { apply (Permutation_in _ (Permutation_sym (rows_keys_perm df cat mp ml md pref))).
    rewrite EF. apply group_keys_complete. left. reflexivity. }
  unfold is_empty in H. destruct (rows _) as [|a l]; [destruct Hin | discriminate].
Qed.

(** The result is empty exactly when no row passes the filters: grouping a
    non-empty table gives at least one row. *)
Theorem recommend_empty_iff df cat mp ml md pref :
  is_empty (recommend_suppliers df cat mp ml md pref) = true
  <-> filtered_rows df cat mp ml md pref = [].
Proof. apply is_empty_recommend. Qed.

(** One result row per group: the keys are pairwise distinct, and the key
    of every filtered row appears. *)
Theorem recommend_one_row_per_group df cat mp ml md pref :
  NoDup (map Res.key (rows (recommend_suppliers df cat mp ml md pref)))
  /\ forall r, In r (filtered_rows df cat mp ml md pref) ->
       In (group_key cat pref r) (map Res.key (rows (recommend_suppliers df cat mp ml md pref))).
Proof.
  pose proof (rows_keys_perm df cat mp ml md pref) as P. split.
  - apply (Permutation_NoDup (Permutation_sym P)), group_keys_NoDup.
  - intros r Hr. apply (Permutation_in _ (Permutation_sym P)), group_keys_complete, Hr.
Qed.

(** The groups partition the filtered rows: [Total_Orders] sums to the
    number of filtered rows and [Total_Quantity] to their total quantity. *)
Theorem recommend_totals df cat mp ml md pref :
  fold_right Z.add 0 (map Res.Total_Orders (rows (recommend_suppliers df cat mp ml md pref)))
  = Z.of_nat (length (filtered_rows df cat mp ml md pref))
  /\ fold_right Z.add 0 (map Res.Total_Quantity (rows (recommend_suppliers df cat mp ml md pref)))
  = fold_right Z.add 0 (map Quantity (filtered_rows df cat mp ml md pref)).
Proof.
  rewrite rows_recommend. set (F := filtered_rows df cat mp ml md pref).
  assert (Hsum : forall h : Res.t -> Z,
    fold_right Z.add 0 (map h (isort sort_compare (merged_groups F cat pref)))
    = fold_right Z.add 0 (map h (merged_groups F cat pref))).
  { intros h. apply zsum_perm, Permutation_map, isort_perm. }
  rewrite !Hsum. unfold merged_groups. rewrite !map_map.
  split.
  - rewrite (map_ext _ (fun k => fold_right Z.add 0
              (map (fun _ => 1) (filter (fun r => key_eqb (group_key cat pref r) k) F))))
      by (intros k; apply length_zsum).
    rewrite (partition_sum (group_key cat pref) key_eqb key_eqb_spec).
    + symmetry. apply length_zsum.
    + apply group_keys_NoDup.
    + intros r Hr. apply group_keys_complete, Hr.
  - change (fold_right Z.add 0
      (map (fun k => fold_right Z.add 0
              (map Quantity (filter (fun r => key_eqb (group_key cat pref r) k) F)))
         (group_keys cat pref F)) = fold_right Z.add 0 (map Quantity F)).
    apply (partition_sum (group_key cat pref) key_eqb key_eqb_spec).
    + apply group_keys_NoDup.
    + intros r Hr. apply group_keys_complete, Hr.
Qed.

(** The merged status counts of every result row: none is NaN (each group
    key is found in the crosstab), there is one per status column, and they
    add up to the group's [Total_Orders]; the status columns are the
    distinct [Order_Status] values of the filtered rows, in ascending order:
    each occurs once, every filtered row's status is one of them, and each
    is the status of some filtered row. *)
Theorem recommend_status_counts df cat mp ml md pref :
  let t := recommend_suppliers df cat mp ml md pref in
  NoDup (status_cols t)
  /\ Sorted (fun a b => String.compare a b <> Gt) (status_cols t)
  /\ (forall r, In r (filtered_rows df cat mp ml md pref) -> In (Order_Status r) (status_cols t))
  /\ (forall s, In s (status_cols t) ->
        exists r, In r (filtered_rows df cat mp ml md pref) /\ Order_Status r = s)
  /\ Forall (fun a => exists cs, Res.status a = map Some cs
                        /\ length cs = length (status_cols t)
                        /\ fold_right Z.add 0 cs = Res.Total_Orders a) (rows t).
Proof.
  unfold recommend_suppliers. cbv zeta.
  destruct (filtered_rows df cat mp ml md pref) as [|r0 F0] eqn:EF.
  - split; [constructor|]. split; [constructor|]. split; [intros r []|].
    split; [intros s []|constructor].
  - set (F := r0 :: F0). cbn [status_cols rows].
    split; [apply status_values_NoDup|]. split; [apply status_values_sorted|].
    split; [apply status_values_complete|]. split; [apply status_values_sound|].
    apply Forall_forall. intros a Ha.
    apply (Permutation_in _ (isort_perm _ _)) in Ha.
    destruct (merged_groups_In _ _ _ _ Ha) as [r [Hr ->]].
    set (k := group_key cat pref r).
    set (g := group_rows cat pref F k).
    set (h := fun k' => map (fun s => Z.of_nat (length
               (filter (fun y => String.eqb (Order_Status y) s) (group_rows cat pref F k'))))
               (status_values F)).
    assert (Hf : find (fun p => key_eqb (fst p) k) (crosstab cat pref F) = Some (k, h k)).
    { apply find_crosstab, group_keys_complete, Hr. }
    exists (h k). unfold merge_status. cbn [Res.key Res.Total_Orders aggregate].
    rewrite Hf. split; [reflexivity|]. split; [unfold h; apply length_map|].
    fold g. unfold h. fold g.
    rewrite (map_ext _ (fun s => fold_right Z.add 0
               (map (fun _ => 1) (filter (fun y => String.eqb (Order_Status y) s) g))))
      by (intros s; apply length_zsum).
    rewrite (partition_sum Order_Status String.eqb String.eqb_eq).
    + symmetry. apply length_zsum.
    + apply status_values_NoDup.
    + intros y Hy. apply status_values_complete.
      unfold g, group_rows in Hy. apply filter_In in Hy. apply Hy.
Qed.

(** The category options start with ["All"], followed by the distinct
    categories of the table in ascending order, each once. *)
Theorem item_categories_spec (df : list row) :
  exists cs, item_categories df = "All"%string :: cs
    /\ Sorted (fun a b => String.compare a b <> Gt) cs
    /\ NoDup cs
    /\ forall c, In c cs <-> exists r, In r df /\ Item_Category r = c.
Proof.
  eexists. split; [reflexivity|]. split; [|split].
  - apply isort_sorted. intros x y H. rewrite String.compare_antisym, H. reflexivity.
  - apply (Permutation_NoDup (Permutation_sym (isort_perm _ _))).
    apply uniq_NoDup, String.eqb_eq.
  - intros c. split.
    + intros H. apply (Permutation_in _ (isort_perm _ _)), uniq_In, in_map_iff in H.
      destruct H as [r [E Hr]]. exists r. split; assumption.
    + intros [r [Hr <-]]. apply (Permutation_in _ (Permutation_sym (isort_perm _ _))).
      apply (uniq_complete _ String.eqb_eq). apply in_map, Hr.
Qed.

Lemma mean_single (x : Q) : (mean [x] == x)%Q.
Proof. unfold mean. simpl. field. Qed.

(** No reason is given only when the row meets the three original bounds. *)
Lemma alasan_list_nil mp ml md (a : Res.t) :
  alasan_list mp ml md a = [] ->
  (Res.Defect_Rate_pct a <= md)%Q /\ (Res.Avg_Negotiated_Price a <= mp)%Q
  /\ (forall l, Res.Lead_Time a = Some l -> (l <= ml)%Q).
Proof.
  unfold alasan_list. cbv zeta. intros H.
  destruct (Qle_bool (Qabs (Res.Defect_Rate_pct a - md)) 2); [simpl in H; discriminate H|].
  destruct (Qle_bool (Res.Defect_Rate_pct a) md) eqn:E2; [|simpl in H; discriminate H].
  destruct (Qle_bool (Res.Avg_Negotiated_Price a) mp) eqn:E3; [|simpl in H; discriminate H].
  apply Qle_bool_iff in E2, E3. split; [exact E2|]. split; [exact E3|].
  intros l El. rewrite El in H.
  destruct (Qle_bool l ml) eqn:E5; [apply Qle_bool_iff, E5 | simpl in H; discriminate H].
Qed.

Ltac nonempty_lit := let E := fresh "E" in intros E; cbn in E; discriminate E.

Lemma alasan_list_strings mp ml md (a : Res.t) :
  Forall (fun s => s <> ""%string) (alasan_list mp ml md a).
Proof.
  unfold alasan_list. cbv zeta.
  apply Forall_app; split; [|apply Forall_app; split].
  - destruct (Qle_bool _ 2); [|destruct (negb _)]; repeat constructor; nonempty_lit.
  - destruct (negb _); repeat constructor; nonempty_lit.
  - destruct (Res.Lead_Time a); [destruct (negb _)|]; repeat constructor; nonempty_lit.
Qed.

Lemma alasan_empty mp ml md (a : Res.t) :
  alasan mp ml md a = ""%string -> alasan_list mp ml md a = [].
Proof.
  unfold alasan. pose proof (alasan_list_strings mp ml md a) as HF.
  destruct (alasan_list mp ml md a) as [|x l]; [reflexivity|]. intros H. exfalso.
  apply Forall_cons_iff in HF as [Hx _]. apply Hx.
  destruct l as [|y l]; simpl in H; [exact H|].
  destruct x; [reflexivity | discriminate H].
Qed.

(** What the button shows (lines 127-170): the original result when it is
    non-empty; "no alternative" exactly when both the original and the
    relaxed searches find nothing; otherwise the relaxed result, whose rows
    meet [max_price * 1.5], [max_lead_time + 2] and [max_defect_rate + 2]. *)
Theorem advise_outcomes df cat mp ml md pref :
  (filtered_rows df cat mp ml md pref <> [] ->
     advise df cat mp ml md pref = Recommended (recommend_suppliers df cat mp ml md pref))
  /\ (advise df cat mp ml md pref = NoAlternative <->
        filtered_rows df cat mp ml md pref = []
        /\ filtered_rows df cat (mp * (3 # 2)) (ml + 2) (md + 2) pref = [])
  /\ (forall t cs, advise df cat mp ml md pref = Alternatives t cs ->
        filtered_rows df cat mp ml md pref = []
        /\ t = recommend_suppliers df cat (mp * (3 # 2)) (ml + 2) (md + 2) pref
        /\ filtered_rows df cat (mp * (3 # 2)) (ml + 2) (md + 2) pref <> []
        /\ Forall (fun a => (Res.Avg_Negotiated_Price a <= mp * (3 # 2))%Q
                            /\ (exists l, Res.Lead_Time a = Some l /\ (l <= ml + 2)%Q)
                            /\ (Res.Defect_Rate_pct a <= md + 2)%Q
                            /\ 1 <= Res.Total_Orders a) (rows t)).
Proof.
  unfold advise. cbv zeta.
  destruct (is_empty (recommend_suppliers df cat mp ml md pref)) eqn:E0.
  - destruct (is_empty (recommend_suppliers df cat (mp * (3 # 2)) (ml + 2) (md + 2) pref)) eqn:E1.
    + apply is_empty_recommend in E0, E1.
      split; [intros H; contradiction|]. split; [split; auto|]. intros t cs H. discriminate H.
    + apply is_empty_recommend in E0. split; [intros H; contradiction|]. split.
      * split; [intros H; discriminate H|]. intros [_ H]. apply is_empty_recommend in H. congruence.
      * intros t cs H. injection H as <- _. split; [exact E0|]. split; [reflexivity|].
        split; [intros H; apply is_empty_recommend in H; congruence|].
        apply recommend_rows_bounds.
  - split; [reflexivity|]. split.
    + split; [intros H; discriminate H|]. intros [H _]. apply is_empty_recommend in H. congruence.
    + intros t cs H. discriminate H.
Qed.

(** A relaxed-search row that stands for a single order always gets a
    non-empty note: that order failed an original bound, and the note
    names it. *)
Theorem fallback_single_order_reason df cat mp ml md pref t cs :
  advise df cat mp ml md pref = Alternatives t cs ->
  Forall (fun a => Res.Total_Orders a = 1 -> alasan mp ml md a <> ""%string) (rows t).
Proof.
  intros H. unfold advise in H. cbv zeta in H.
  destruct (is_empty (recommend_suppliers df cat mp ml md pref)) eqn:E0; [|discriminate H].
  destruct (is_empty (recommend_suppliers df cat (mp * (3 # 2)) (ml + 2) (md + 2) pref)) eqn:E1;
    [discriminate H|].
  injection H as <- _. apply is_empty_recommend in E0.
  rewrite rows_recommend. apply Forall_forall. intros a Ha Hone Hnil.
  apply alasan_empty, alasan_list_nil in Hnil as [Hd [Hp Hlt]].
  apply (Permutation_in _ (isort_perm _ _)) in Ha.
  destruct (merged_groups_In _ _ _ _ Ha) as [r [Hr ->]].
  set (Frel := filtered_rows df cat (mp * (3 # 2)) (ml + 2) (md + 2) pref) in *.
  cbn [merge_status aggregate Res.Defect_Rate_pct Res.Avg_Negotiated_Price Res.Lead_Time
       Res.Total_Orders] in Hd, Hp, Hlt, Hone.
  remember (group_rows cat pref Frel (group_key cat pref r)) as g eqn:Eg.
  assert (Hrg : In r g) by (rewrite Eg; apply group_rows_self, Hr).
  assert (Hg : g = [r]).
  { destruct g as [|y [|y' g']]; simpl length in Hone; [lia| |lia].
    destruct Hrg as [<-|[]]; reflexivity. }
  rewrite Hg in Hd, Hp, Hlt. cbn [map] in Hd, Hp, Hlt.
  rewrite mean_single in Hd, Hp.
  unfold Frel, filtered_rows, filter_thresholds in Hr. apply filter_In in Hr as [Hbase Hrel].
  apply threshold_ok_iff in Hrel as [_ [[l [El _]] _]].
  assert (Hl : (inject_Z l <= ml)%Q).
  { rewrite <- (mean_single (inject_Z l)). apply Hlt. rewrite El. reflexivity. }
  assert (Hok : threshold_ok mp ml md r = true).
  { apply threshold_ok_iff. split; [exact Hp|]. split; [exists l; split; assumption | exact Hd]. }
  assert (Hin : In r (filtered_rows df cat mp ml md pref)).
  { unfold filtered_rows, filter_thresholds. apply filter_In. split; assumption. }
  rewrite E0 in Hin. exact Hin.
Qed.

Lemma threshold_ok_mono mp ml md mp' ml' md' (r : row) :
  (mp <= mp')%Q -> (ml <= ml')%Q -> (md <= md')%Q ->
  threshold_ok mp ml md r = true -> threshold_ok mp' ml' md' r = true.
Proof.
  intros Hp Hl Hd H. apply threshold_ok_iff in H as [H1 [[l [El H2]] H3]].
  apply threshold_ok_iff. split; [|split].
  - apply (Qle_trans _ mp); assumption.
  - exists l. split; [exact El | apply (Qle_trans _ ml); assumption].
  - apply (Qle_trans _ md); assumption.
Qed.

(** Loosening the three bounds keeps every group of the result: each key
    of the stricter result is a key of the looser one. *)
Theorem recommend_keys_monotone df cat pref mp ml md mp' ml' md' :
  (mp <= mp')%Q -> (ml <= ml')%Q -> (md <= md')%Q ->
  forall k, In k (map Res.key (rows (recommend_suppliers df cat mp ml md pref))) ->
            In k (map Res.key (rows (recommend_suppliers df cat mp' ml' md' pref))).
Proof.
  intros Hp Hl Hd k Hk.
  apply (Permutation_in _ (rows_keys_perm df cat mp ml md pref)) in Hk.
  apply (Permutation_in _ (Permutation_sym (rows_keys_perm df cat mp' ml' md' pref))).
  unfold group_keys in Hk. apply (Permutation_in _ (isort_perm _ _)), uniq_In, in_map_iff in Hk.
  destruct Hk as [r [<- Hr]]. apply group_keys_complete.
  unfold filtered_rows, filter_thresholds in *. apply filter_In in Hr as [Hb Ht].
  apply filter_In. split; [exact Hb|]. apply (threshold_ok_mono mp ml md); assumption.
Qed.

(** ** Number formatting of the notes *)

Lemma read_digits_app (a b : string) (v : Z) :
  read_digits (String.append a b) v = read_digits b (read_digits a v).
Proof. revert v; induction a as [|c a IH]; intros v; simpl; [reflexivity | apply IH]. Qed.

Lemma all_digits_app (a b : string) :
  all_digits (String.append a b) = all_digits a && all_digits b.
Proof. induction a as [|c a IH]; simpl; [reflexivity|]. rewrite IH, andb_assoc. reflexivity. Qed.

Lemma drop_commas_app (a b : string) :
  drop_commas (String.append a b) = String.append (drop_commas a) (drop_commas b).
Proof.
  induction a as [|c a IH]; simpl; [reflexivity|].
  destruct (Ascii.eqb c ","); simpl; rewrite IH; reflexivity.
Qed.

Lemma drop_commas_digits (s : string) : all_digits s = true -> drop_commas s = s.
Proof.
  induction s as [|c s IH]; simpl; [reflexivity|].
  intros H. apply andb_true_iff in H as [Hc Hs].
  destruct (Ascii.eqb_spec c ","); [subst c; discriminate Hc|]. rewrite IH by exact Hs. reflexivity.
Qed.

Lemma digit_ascii (d : Z) : 0 <= d < 10 -> nat_of_ascii (digit d) = (48 + Z.to_nat d)%nat.
Proof.
  intros H. unfold digit. apply nat_ascii_embedding. lia.
Qed.

Lemma digit_val (d : Z) : 0 <= d < 10 -> Z.of_nat (nat_of_ascii (digit d)) - 48 = d.
Proof. intros H. rewrite digit_ascii by exact H. lia. Qed.

Lemma is_digit_digit (d : Z) : 0 <= d < 10 -> is_digit (digit d) = true.
Proof.
  intros H. unfold is_digit. rewrite digit_ascii by exact H.
  apply andb_true_iff. split; apply Nat.leb_le; lia.
Qed.

Lemma digits_aux_spec (fuel : nat) (n : Z) (acc : string) (v : Z) :
  0 <= n < 10 ^ Z.of_nat fuel ->
  all_digits (digits_aux fuel n acc) = all_digits acc
  /\ exists k : nat, read_digits (digits_aux fuel n acc) v = read_digits acc (v * 10 ^ Z.of_nat k + n).
Proof.
  revert n acc v; induction fuel as [|f IH]; intros n acc v Hn.
  - simpl in Hn. split; [reflexivity|]. exists 0%nat. simpl. f_equal. lia.
  - cbn [digits_aux]. assert (Hm : 0 <= n mod 10 < 10) by (apply Z.mod_pos_bound; lia).
    destruct (Z.ltb_spec n 10) as [Hlt|Hge].
    + cbn [all_digits read_digits]. rewrite is_digit_digit, digit_val by exact Hm.
      split; [reflexivity|]. exists 1%nat. f_equal. rewrite Z.mod_small by lia.
      change (10 ^ Z.of_nat 1) with 10. lia.
    + assert (Hq : 0 <= n / 10 < 10 ^ Z.of_nat f).
      { split; [apply Z.div_pos; lia|]. apply Z.div_lt_upper_bound; [lia|].
        rewrite Nat2Z.inj_succ, Z.pow_succ_r in Hn by lia. lia. }
      destruct (IH (n / 10) (String (digit (n mod 10)) acc) v Hq) as [Ha [k Hk]].
      split; [rewrite Ha; cbn [all_digits]; rewrite is_digit_digit by exact Hm; reflexivity|].
      exists (S k). rewrite Hk. cbn [read_digits]. rewrite digit_val by exact Hm. f_equal.
      rewrite Nat2Z.inj_succ, Z.pow_succ_r by lia.
      pose proof (Z.div_mod n 10 ltac:(lia)). lia.
Qed.

Lemma digits_spec (n : Z) (v : Z) :
  0 <= n ->
  all_digits (digits n) = true /\ exists k : nat, read_digits (digits n) v = v * 10 ^ Z.of_nat k + n.
Proof.
  intros Hn. unfold digits.
  assert (Hb : 0 <= n < 10 ^ Z.of_nat (S (Z.to_nat (Z.log2 n)))).
  { split; [exact Hn|]. rewrite Nat2Z.inj_succ, Z2Nat.id by apply Z.log2_nonneg.
    apply (Z.lt_le_trans _ (2 ^ Z.succ (Z.log2 n))).
    - destruct (Z.eq_dec n 0) as [->|Hz]; [reflexivity|]. apply Z.log2_spec. lia.
    - apply Z.pow_le_mono_l. lia. }
  destruct (digits_aux_spec _ n EmptyString v Hb) as [Ha [k Hk]].
  split; [exact Ha|]. exists k. exact Hk.
Qed.

(** [str(n)] of an integer is a sign and a decimal numeral that reads back
    as [n]. *)
Theorem str_int_reads_back (n : Z) :
  exists s, str_int n = String.append (if n <? 0 then "-" else "") s
    /\ all_digits s = true /\ read_digits s 0 = Z.abs n.
Proof.
  destruct (digits_spec (Z.abs n) 0 (Z.abs_nonneg n)) as [Ha [k Hk]].
  exists (digits (Z.abs n)). unfold str_int.
  destruct (Z.ltb_spec n 0).
  - rewrite Z.abs_neq by lia. split; [reflexivity|]. rewrite Z.abs_neq in Ha, Hk by lia.
    split; [exact Ha|]. rewrite Hk. lia.
  - rewrite Z.abs_eq by lia. split; [reflexivity|]. rewrite Z.abs_eq in Ha, Hk by lia.
    split; [exact Ha|]. rewrite Hk. lia.
Qed.

Lemma pad3_spec (m v : Z) :
  0 <= m < 1000 -> all_digits (pad3 m) = true /\ read_digits (pad3 m) v = v * 1000 + m.
Proof.
  intros Hm. unfold pad3.
  assert (H1 : 0 <= m / 100 < 10).
  { split; [apply Z.div_pos; lia | apply Z.div_lt_upper_bound; lia]. }
  assert (H2 : 0 <= (m / 10) mod 10 < 10) by (apply Z.mod_pos_bound; lia).
  assert (H3 : 0 <= m mod 10 < 10) by (apply Z.mod_pos_bound; lia).
  cbn [all_digits read_digits]. rewrite !is_digit_digit, !digit_val by assumption.
  split; [reflexivity|].
  pose proof (Z.div_mod m 10 ltac:(lia)). pose proof (Z.div_mod (m / 10) 10 ltac:(lia)).
  rewrite Z.div_div in H0 by lia. change (10 * 10) with 100 in H0. lia.
Qed.

Lemma commas_aux_spec (fuel : nat) (n v : Z) :
  0 <= n ->
  all_digits (drop_commas (commas_aux fuel n)) = true
  /\ exists k : nat, read_digits (drop_commas (commas_aux fuel n)) v = v * 10 ^ Z.of_nat k + n.
Proof.
  revert n v; induction fuel as [|f IH]; intros n v Hn; cbn [commas_aux].
  - destruct (digits_spec n v Hn) as [Ha Hk]. rewrite drop_commas_digits by exact Ha. auto.
  - destruct (Z.ltb_spec n 1000).
    + destruct (digits_spec n v Hn) as [Ha Hk]. rewrite drop_commas_digits by exact Ha. auto.
    + assert (Hq : 0 <= n / 1000) by (apply Z.div_pos; lia).
      assert (Hm : 0 <= n mod 1000 < 1000) by (apply Z.mod_pos_bound; lia).
      destruct (IH (n / 1000) v Hq) as [Ha [k Hk]].
      destruct (pad3_spec (n mod 1000) (v * 10 ^ Z.of_nat k + n / 1000) Hm) as [Hp Hr].
      rewrite !drop_commas_app. change (drop_commas ","%string) with ""%string.
      cbn [String.append]. rewrite (drop_commas_digits (pad3 (n mod 1000)) Hp).
      split; [rewrite all_digits_app, Ha, Hp; reflexivity|].
      exists (k + 3)%nat. rewrite read_digits_app, Hk, Hr.
      rewrite Nat2Z.inj_add, Z.pow_add_r by lia. change (10 ^ Z.of_nat 3) with 1000.
      pose proof (Z.div_mod n 1000 ltac:(lia)). lia.
Qed.

Lemma str_append_assoc (a b c : string) :
  String.append (String.append a b) c = String.append a (String.append b c).
Proof. induction a as [|x a IH]; simpl; [reflexivity|]. rewrite IH. reflexivity. Qed.

Lemma str_append_empty_r (a : string) : String.append a EmptyString = a.
Proof. induction a as [|x a IH]; simpl; [reflexivity|]. rewrite IH. reflexivity. Qed.

Lemma str_length_append (a b : string) :
  String.length (String.append a b) = (String.length a + String.length b)%nat.
Proof. induction a as [|x a IH]; simpl; [reflexivity|]. rewrite IH. reflexivity. Qed.

Lemma comma_groups_snoc (gs : list string) (g : string) :
  comma_groups (gs ++ [g]) = String.append (comma_groups gs) (String "," g).
Proof.
  induction gs as [|h gs IH]; cbn [comma_groups app String.append].
  - rewrite str_append_empty_r. reflexivity.
  - rewrite IH, str_append_assoc. reflexivity.
Qed.

Lemma digit_not_zero (d : Z) : 0 < d < 10 -> digit d <> "0"%char.
Proof.
  intros H E. apply (f_equal nat_of_ascii) in E. rewrite digit_ascii in E by lia.
  change (nat_of_ascii "0") with 48%nat in E. lia.
Qed.

(** The numeral built by [digits_aux]: a first digit that is ["0"] only for
    [0] (which is written ["0"]), and as many digits as [n] needs. *)
Lemma digits_aux_shape (fuel : nat) (n : Z) (acc : string) :
  0 <= n < 10 ^ Z.of_nat fuel -> (1 <= fuel)%nat ->
  exists c rest, digits_aux fuel n acc = String.append (String c rest) acc
    /\ (n = 0 -> c = "0"%char /\ rest = EmptyString)
    /\ (0 < n -> c <> "0"%char)
    /\ n < 10 ^ Z.of_nat (String.length (String c rest))
    /\ (0 < n -> 10 ^ Z.of_nat (String.length rest) <= n).
Proof.
  revert n acc; induction fuel as [|f IH]; intros n acc Hn Hf; [lia|].
  cbn [digits_aux]. assert (Hm : 0 <= n mod 10 < 10) by (apply Z.mod_pos_bound; lia).
  destruct (Z.ltb_spec n 10) as [Hlt|Hge].
  - rewrite Z.mod_small by lia.
    exists (digit n), EmptyString. split; [reflexivity|].
    split; [intros ->; split; reflexivity|]. split; [intros Hp; apply digit_not_zero; lia|].
    cbn [String.length]. change (10 ^ Z.of_nat 1) with 10. change (10 ^ Z.of_nat 0) with 1.
    split; lia.
  - destruct f as [|f].
    { simpl in Hn. lia. }
    assert (Hq : 0 <= n / 10 < 10 ^ Z.of_nat (S f)).
    { split; [apply Z.div_pos; lia|]. apply Z.div_lt_upper_bound; [lia|].
      rewrite (Nat2Z.inj_succ (S f)), Z.pow_succ_r in Hn by lia. lia. }
    destruct (IH (n / 10) (String (digit (n mod 10)) acc) Hq ltac:(lia))
      as [c [rest [E [_ [Hc [Hlt Hle]]]]]].
    assert (Hd : 0 < n / 10) by (apply Z.div_str_pos; lia).
    exists c, (String.append rest (String (digit (n mod 10)) EmptyString)).
    split.
    { rewrite E. cbn [String.append]. rewrite str_append_assoc. reflexivity. }
    split; [intros; lia|]. split; [intros _; apply Hc, Hd|].
    specialize (Hle Hd). cbn [String.length] in *. rewrite !str_length_append. cbn [String.length].
    pose proof (Z.div_mod n 10 ltac:(lia)) as D.
    replace (Z.of_nat (S (String.length rest + 1))) with (Z.of_nat (S (String.length rest)) + 1)
      by lia.
    replace (Z.of_nat (String.length rest + 1)) with (Z.of_nat (String.length rest) + 1) by lia.
    rewrite !Z.pow_add_r by lia. change (10 ^ 1) with 10.
    split; [|intros _]; lia.
Qed.

Lemma digits_fuel (n : Z) : 0 <= n -> 0 <= n < 10 ^ Z.of_nat (S (Z.to_nat (Z.log2 n))).
Proof.
  intros Hn. split; [exact Hn|]. rewrite Nat2Z.inj_succ, Z2Nat.id by apply Z.log2_nonneg.
  apply (Z.lt_le_trans _ (2 ^ Z.succ (Z.log2 n))).
  - destruct (Z.eq_dec n 0) as [->|Hz]; [reflexivity|]. apply Z.log2_spec. lia.
  - apply Z.pow_le_mono_l. lia.
Qed.

Lemma digits_shape (n : Z) :
  0 <= n ->
  exists c rest, digits n = String c rest
    /\ (n = 0 -> c = "0"%char /\ rest = EmptyString)
    /\ (0 < n -> c <> "0"%char)
    /\ n < 10 ^ Z.of_nat (String.length (String c rest))
    /\ (0 < n -> 10 ^ Z.of_nat (String.length rest) <= n).
Proof.
  intros Hn. unfold digits.
  destruct (digits_aux_shape _ n EmptyString (digits_fuel n Hn) ltac:(lia))
    as [c [rest [E H]]].
  exists c, rest. rewrite E, str_append_empty_r. split; [reflexivity|exact H].
Qed.

(** The leading digits of a number under [1000] are one to three digits,
    with no leading zero unless the number is [0]. *)
Lemma digits_head (m : Z) :
  0 <= m < 1000 ->
  (1 <= String.length (digits m) <= 3)%nat /\ all_digits (digits m) = true
  /\ (m = 0 /\ digits m = "0"%string \/ 0 < m /\ String.get 0 (digits m) <> Some "0"%char).
Proof.
  intros Hm. destruct (digits_spec m 0 ltac:(lia)) as [Ha _].
  destruct (digits_shape m ltac:(lia)) as [c [rest [E [H0 [Hc [Hlt Hle]]]]]].
  rewrite E in *. split; [|split; [exact Ha|]].
  - cbn [String.length] in *. split; [lia|].
    destruct (Z.eq_dec m 0) as [->|Hz].
    + destruct (H0 eq_refl) as [_ ->]. cbn. lia.
    + specialize (Hle ltac:(lia)).
      destruct (Nat.le_gt_cases (String.length rest) 2) as [Hr|Hr]; [lia|].
      assert (10 ^ 3 <= 10 ^ Z.of_nat (String.length rest)) by (apply Z.pow_le_mono_r; lia).
      lia.
  - destruct (Z.eq_dec m 0) as [->|Hz].
    + left. destruct (H0 eq_refl) as [-> ->]. split; reflexivity.
    + right. split; [lia|]. cbn. intros Eq. injection Eq. apply Hc. lia.
Qed.

(** The text [commas_aux] builds: leading digits of a number under [1000],
    then three-digit groups. *)
Lemma commas_aux_shape (fuel : nat) (n : Z) :
  0 <= n < 1000 ^ Z.of_nat fuel ->
  exists m gs, commas_aux fuel n = String.append (digits m) (comma_groups gs)
    /\ 0 <= m < 1000
    /\ (m = 0 -> gs = [])
    /\ Forall (fun g => String.length g = 3%nat /\ all_digits g = true) gs.
Proof.
  revert n; induction fuel as [|f IH]; intros n Hn; cbn [commas_aux].
  - simpl in Hn. exists n, []. rewrite str_append_empty_r.
    split; [reflexivity|]. split; [lia|]. split; [reflexivity | constructor].
  - destruct (Z.ltb_spec n 1000).
    + exists n, []. rewrite str_append_empty_r.
      split; [reflexivity|]. split; [lia|]. split; [reflexivity | constructor].
    + assert (Hq : 0 <= n / 1000 < 1000 ^ Z.of_nat f).
      { split; [apply Z.div_pos; lia|]. apply Z.div_lt_upper_bound; [lia|].
        rewrite Nat2Z.inj_succ, Z.pow_succ_r in Hn by lia. lia. }
      assert (Hd : 0 < n / 1000) by (apply Z.div_str_pos; lia).
      assert (Hr : 0 <= n mod 1000 < 1000) by (apply Z.mod_pos_bound; lia).
      destruct (IH (n / 1000) Hq) as [m [gs [E [Hm [H0 Hg]]]]].
      exists m, (gs ++ [pad3 (n mod 1000)]).
      split.
      { rewrite E, comma_groups_snoc, str_append_assoc. reflexivity. }
      split; [exact Hm|]. split.
      { intros ->. specialize (H0 eq_refl). subst gs.
        rewrite str_append_empty_r in E. destruct (digits_shape 0 ltac:(lia)) as [c [rest [E0 _]]].
        exfalso. destruct (commas_aux_spec f (n / 1000) 0 ltac:(lia)) as [_ [k Hk]].
        rewrite E in Hk. change (digits 0) with "0"%string in Hk. cbn in Hk.
        assert (0 < 10 ^ Z.of_nat k) by (apply Z.pow_pos_nonneg; lia). lia. }
      apply Forall_app. split; [exact Hg|]. constructor; [|constructor].
      split; [reflexivity | apply (pad3_spec _ 0 Hr)].
Qed.

(** [f"{n:,}"] is a sign, one to three leading digits (no leading zero
    unless the number is [0]) and then groups of three digits, each after a
    comma; with the commas removed it reads back as [n]. *)
Theorem fmt_commas_reads_back (n : Z) :
  exists s, fmt_commas n = String.append (if n <? 0 then "-" else "") s
    /\ all_digits (drop_commas s) = true /\ read_digits (drop_commas s) 0 = Z.abs n
    /\ exists head gs, s = String.append head (comma_groups gs)
         /\ (1 <= String.length head <= 3)%nat /\ all_digits head = true
         /\ (head = "0"%string /\ gs = [] \/ String.get 0 head <> Some "0"%char)
         /\ Forall (fun g => String.length g = 3%nat /\ all_digits g = true) gs.
Proof.
  unfold fmt_commas. cbv zeta.
  set (s := commas_aux (S (Z.to_nat (Z.log2 (Z.abs n)))) (Z.abs n)).
  destruct (commas_aux_spec (S (Z.to_nat (Z.log2 (Z.abs n)))) (Z.abs n) 0 (Z.abs_nonneg n))
    as [Ha [k Hk]].
  assert (Hf : 0 <= Z.abs n < 1000 ^ Z.of_nat (S (Z.to_nat (Z.log2 (Z.abs n))))).
  { destruct (digits_fuel (Z.abs n) (Z.abs_nonneg n)) as [H1 H2]. split; [exact H1|].
    eapply Z.lt_le_trans; [exact H2|]. apply Z.pow_le_mono_l. lia. }
  destruct (commas_aux_shape _ _ Hf) as [m [gs [E [Hm [H0 Hg]]]]].
  exists s. split; [destruct (n <? 0); reflexivity|]. split; [exact Ha|].
  split; [unfold s; rewrite Hk; lia|].
  destruct (digits_head m Hm) as [Hl [Hd Hz]].
  exists (digits m), gs. split; [exact E|]. split; [exact Hl|]. split; [exact Hd|].
  split; [|exact Hg].
  destruct Hz as [[Hm0 Hs]|[_ Hs]]; [left; split; [exact Hs | apply H0, Hm0] | right; exact Hs].
Qed.

Lemma py_round_near (q : Q) : (Qabs (inject_Z (py_round q) - q) <= 1 # 2)%Q.
Proof.
  pose proof (Qfloor_le q) as F1. pose proof (Qlt_floor q) as F2.
  apply Qabs_Qle_condition. unfold py_round. cbv zeta.
  rewrite inject_Z_plus in *. change (inject_Z 1) with 1%Q in *.
  set (fq := inject_Z (Qfloor q)) in *.
  destruct (Qle_bool (q - fq) (1 # 2)) eqn:E1; cbn [negb].
  - apply Qle_bool_iff in E1.
    destruct (Qeq_bool (q - fq) (1 # 2)) eqn:E2.
    + apply Qeq_bool_iff in E2.
      destruct (Z.even (Qfloor q)); rewrite ?inject_Z_plus; change (inject_Z 1) with 1%Q;
        fold fq; split; lra.
    + fold fq. split; lra.
  - assert (Hn : ~ (q - fq <= 1 # 2)%Q).
    { intros Hle. apply Qle_bool_iff in Hle. congruence. }
    apply Qnot_le_lt in Hn. rewrite inject_Z_plus. change (inject_Z 1) with 1%Q.
    fold fq. split; lra.
Qed.

(** [f"{x:.1f}"] is a sign, a numeral (["0"] or a numeral whose first
    digit is not [0]), a point and one digit; the value it shows is within
    0.05 of [x]. *)
Theorem fmt1_reads_back (x : Q) :
  exists ip d, fmt1 x = String.append (if Qle_bool 0 x then "" else "-")
                          (String.append ip (String "." (String d EmptyString)))
    /\ all_digits ip = true /\ is_digit d = true
    /\ (ip = "0"%string \/ exists c rest, ip = String c rest /\ c <> "0"%char)
    /\ (Qabs (inject_Z (read_digits ip 0) + inject_Z (Z.of_nat (nat_of_ascii d) - 48) / 10
              - Qabs x) <= 1 # 20)%Q.
Proof.
  unfold fmt1. cbv zeta.
  set (n := py_round (Qabs x * 10)).
  assert (Hn : 0 <= n).
  { apply (py_round_between 0 (Qceiling (Qabs x * 10))).
    - change (inject_Z 0) with 0%Q. apply (Qle_trans _ (0 * 10)); [apply Qle_refl|].
      apply Qmult_le_r; [reflexivity | apply Qabs_nonneg].
    - apply Qle_ceiling. }
  assert (Hm : 0 <= n mod 10 < 10) by (apply Z.mod_pos_bound; lia).
  destruct (digits_spec (n / 10) 0 (Z.div_pos n 10 Hn ltac:(lia))) as [Ha [k Hk]].
  exists (digits (n / 10)), (digit (n mod 10)).
  split; [destruct (Qle_bool 0 x); reflexivity|].
  split; [exact Ha|]. split; [apply is_digit_digit, Hm|].
  split.
  { destruct (digits_shape (n / 10) (Z.div_pos n 10 Hn ltac:(lia)))
      as [c [rest [Ed [H0 [Hc _]]]]].
    rewrite Ed. destruct (Z.eq_dec (n / 10) 0) as [Hz|Hz].
    - left. destruct (H0 Hz) as [-> ->]. reflexivity.
    - right. exists c, rest. split; [reflexivity|]. apply Hc.
      pose proof (Z.div_pos n 10 Hn ltac:(lia)). lia. }
  rewrite Hk, digit_val by exact Hm. rewrite Z.mul_0_l, Z.add_0_l.
  assert (E : (inject_Z (n / 10) + inject_Z (n mod 10) / 10 == inject_Z n / 10)%Q).
  { pose proof (Z.div_mod n 10 ltac:(lia)) as D.
    rewrite D at 3. rewrite inject_Z_plus, inject_Z_mult. field. }
  rewrite E. pose proof (py_round_near (Qabs x * 10)) as R. fold n in R.
  apply Qabs_Qle_condition in R as [R1 R2]. apply Qabs_Qle_condition.
  set (a := Qabs x) in *. set (z := inject_Z n) in *.
  assert (E2 : (z / 10 == z * (1 # 10))%Q) by reflexivity.
  rewrite E2. split; lra.
Qed.

Lemma frac_digits_zero (fuel : nat) (r : Q) : (r == 0)%Q -> frac_digits fuel r = repeat 0 fuel.
Proof.
  revert r; induction fuel as [|f IH]; intros r H; [reflexivity|].
  cbn [frac_digits repeat].
  assert (Hf : Qfloor (r * 10) = 0) by (rewrite H; reflexivity).
  rewrite Hf. f_equal. apply IH. rewrite H. reflexivity.
Qed.

Lemma drop_trailing_zeros_repeat (n : nat) : drop_trailing_zeros (repeat 0 n) = [].
Proof. induction n as [|n IH]; simpl; [reflexivity|]. rewrite IH. reflexivity. Qed.

(** [str(x)] of a whole-valued float, e.g. a lead time averaging to a whole
    number of days, is [str(int(x))] followed by [".0"]. *)
Theorem repr_float_whole (n : Z) : repr_float (inject_Z n) = String.append (str_int n) ".0".
Proof.
  unfold repr_float. cbv zeta.
  change (Qabs (inject_Z n)) with (inject_Z (Z.abs n)). rewrite Qfloor_Z.
  rewrite frac_digits_zero by (unfold Qminus; apply Qplus_opp_r).
  rewrite drop_trailing_zeros_repeat. unfold str_int.
  destruct (Z.ltb_spec n 0) as [Hn|Hn].
  - destruct (Qle_bool 0 (inject_Z n)) eqn:E.
    + apply Qle_bool_iff in E. change 0%Q with (inject_Z 0) in E.
      rewrite <- Zle_Qle in E. lia.
    + rewrite Z.abs_neq by lia. reflexivity.
  - destruct (Qle_bool 0 (inject_Z n)) eqn:E.
    + rewrite Z.abs_eq by lia. reflexivity.
    + exfalso. assert (H : (inject_Z 0 <= inject_Z n)%Q) by (rewrite <- Zle_Qle; exact Hn).
      apply Qle_bool_iff in H. change (inject_Z 0) with 0%Q in H. congruence.
Qed.

End Recommend.

(** ** Examples with [str.lower] instantiated on ASCII text *)

Lemma recommend_degenerate_empty_witness :
  filtered_rows ascii_str_lower df_sort "All" 200000 10 1 "All" = [] /\
  recommend_suppliers ascii_str_lower df_sort "All" 200000 10 1 "All" = empty_frame.
Proof.
  split; [reflexivity|].
  apply (proj1 (proj2 (recommend_degenerate_empty ascii_str_lower))). reflexivity.
Defined.

Lemma filtered_rows_spec_witness :
  ("Yes"%string = "All"%string \/ "Yes"%string = "Yes"%string \/ "Yes"%string = "No"%string) /\
  (In (mkr 2 "B" "Tools" "Yes" "Open" 10 (Some 1) 2) (filtered_rows ascii_str_lower df_sort "tools" 10 1 2 "Yes") <->
   In (mkr 2 "B" "Tools" "Yes" "Open" 10 (Some 1) 2) df_sort
   /\ ("tools"%string = "All"%string \/ ascii_str_lower "Tools" = ascii_str_lower "tools")
   /\ ("Yes"%string = "All"%string \/ "Yes"%string = "Yes"%string)
   /\ (10 <= 10)%Q
   /\ (exists l : Z, Some 1%Z = Some l /\ (inject_Z l <= 1)%Q)
   /\ (2 <= 2)%Q).
Proof.
  split; [right; left; reflexivity|].
  apply (filtered_rows_spec ascii_str_lower df_sort "tools" 10 1 2 "Yes" (mkr 2 "B" "Tools" "Yes" "Open" 10 (Some 1) 2)).
  right; left; reflexivity.
Defined.

Lemma filter_monotone_witness :
  (200000 <= 200000)%Q /\ (10 <= 10)%Q /\ (2 <= 5)%Q /\
  length (filtered_rows ascii_str_lower df_sort "All" 200000 10 2 "All") = 2%nat /\
  length (filtered_rows ascii_str_lower df_sort "All" 200000 10 5 "All") = 3%nat /\
  (length (filtered_rows ascii_str_lower df_sort "All" 200000 10 2 "All")
   <= length (filtered_rows ascii_str_lower df_sort "All" 200000 10 5 "All"))%nat.
Proof.
  split; [apply Qle_refl|]. split; [apply Qle_refl|]. split; [discriminate|].
  split; [vm_compute; reflexivity|]. split; [vm_compute; reflexivity|].
  apply (filter_monotone ascii_str_lower df_sort "All" "All" 200000 10 2 200000 10 5);
    [apply Qle_refl | apply Qle_refl | discriminate].
Defined.

Lemma no_reference_row_excluded_witness :
  exists x, nth_error (match prepare raws_noref with Ok df => df | Err _ => [] end) 0%nat = Some x
    /\ Lead_Time x = None
    /\ ~ In x (filtered_rows ascii_str_lower (match prepare raws_noref with Ok df => df | Err _ => [] end)
                "All" 200000 10 5 "All").
Proof.
  destruct (no_reference_row_excluded ascii_str_lower raws_noref
              (match prepare raws_noref with Ok df => df | Err _ => [] end)
              0%nat (mkraw 1 "T" 10 (Some 0%Q) (days_from_civil 2024 1 1) None)
              ltac:(vm_compute; reflexivity) eq_refl eq_refl)
    as [x [Hx [_ [Hl [_ [_ Hnot]]]]]].
  { intros r' [<-|[]] _. reflexivity. }
  exists x. split; [exact Hx|]. split; [exact Hl|]. apply Hnot.
Defined.

Lemma recommend_group_key_witness :
  is_empty (recommend_suppliers ascii_str_lower df_sort "All" 200000 10 10 "Yes") = false /\
  key_cols (recommend_suppliers ascii_str_lower df_sort "All" 200000 10 10 "Yes")
  = ["Supplier"; "Item_Category"]%string.
Proof.
  split; [vm_compute; reflexivity|].
  destruct (recommend_group_key ascii_str_lower df_sort "All" 200000 10 10 "Yes") as [H _];
    [vm_compute; reflexivity|].
  rewrite H. reflexivity.
Defined.

Lemma alasan_near_checked_first_witness :
  (Qabs ((13 # 2) - 5) <= 2)%Q /\
  exists rest,
    alasan_list 200000 10 5 (Res.mk [] 150000 (Some 3%Q) (13 # 2) 0 100 1 [])
    = "Defect Rate mendekati batas (6.5%)"%string :: rest.
Proof.
  split; [apply Qle_bool_iff; vm_compute; reflexivity|].
  destruct (proj1 (alasan_near_checked_first ascii_str_lower) 200000%Q 10%Q 5%Q
              (Res.mk [] 150000 (Some 3%Q) (13 # 2) 0 100 1 []))
    as [rest [H _]]; [apply Qle_bool_iff; vm_compute; reflexivity|].
  exists rest. rewrite H. reflexivity.
Defined.

(** C1, as stated, is refuted: in fallback mode with [max_defect_rate = 5]
    the reason of the 6.5 row contains neither "defect rate 6.5%" nor
    "Defect Rate 6.5%", and no reason says "near defect threshold". *)
Lemma fallback_reason_6_5_is_near :
  exists t cs, advise ascii_str_lower df_fallback "All" 200000 10 5 "All" = Alternatives t cs
    /\ combine (map Res.Defect_Rate_pct (rows t)) cs
       = [(11 # 2, "Defect Rate mendekati batas (5.5%)");
          (13 # 2, "Defect Rate mendekati batas (6.5%)")]%string
    /\ contains "defect rate 6.5%" "Defect Rate mendekati batas (6.5%)" = false
    /\ contains "Defect Rate 6.5%" "Defect Rate mendekati batas (6.5%)" = false
    /\ existsb (contains "near defect threshold") cs = false.
Proof.
  do 2 eexists. split; [vm_compute; reflexivity|].
  vm_compute. repeat split.
Qed.

Lemma advise_outcomes_witness :
  filtered_rows ascii_str_lower df_fallback "All" 200000 10 5 "All" = []
  /\ filtered_rows ascii_str_lower df_fallback "All" (200000 * (3 # 2)) (10 + 2) (5 + 2) "All" <> [].
Proof.
  assert (H : advise ascii_str_lower df_fallback "All" 200000 10 5 "All"
              = Alternatives (recommend_suppliers ascii_str_lower df_fallback "All" (200000 * (3 # 2)) (10 + 2) (5 + 2) "All")
                  (map (alasan 200000 10 5)
                     (rows (recommend_suppliers ascii_str_lower df_fallback "All" (200000 * (3 # 2)) (10 + 2) (5 + 2) "All"))))
    by (vm_compute; reflexivity).
  destruct (proj2 (proj2 (advise_outcomes ascii_str_lower df_fallback "All" 200000 10 5 "All")) _ _ H)
    as [H1 [_ [H3 _]]].
  split; assumption.
Defined.

Lemma fallback_single_order_reason_witness :
  rows (recommend_suppliers ascii_str_lower df_fallback "All" (200000 * (3 # 2)) (10 + 2) (5 + 2) "All") <> []
  /\ Forall (fun a => Res.Total_Orders a = 1 -> alasan 200000 10 5 a <> ""%string)
       (rows (recommend_suppliers ascii_str_lower df_fallback "All" (200000 * (3 # 2)) (10 + 2) (5 + 2) "All")).
Proof.
  split; [vm_compute; intros E; discriminate E|].
  apply (fallback_single_order_reason ascii_str_lower df_fallback "All" 200000 10 5 "All" _
           (map (alasan 200000 10 5)
              (rows (recommend_suppliers ascii_str_lower df_fallback "All" (200000 * (3 # 2)) (10 + 2) (5 + 2) "All")))).
  vm_compute. reflexivity.
Defined.

Lemma recommend_keys_monotone_witness :
  In ["A"; "Tools"]%string
    (map Res.key (rows (recommend_suppliers ascii_str_lower df_sort "All" 200000 12 10 "Yes"))).
Proof.
  apply (recommend_keys_monotone ascii_str_lower df_sort "All" "Yes" 200000 10 10 200000 12 10).
  - apply Qle_refl.
  - apply Qle_bool_iff. reflexivity.
  - apply Qle_refl.
  - vm_compute. auto.
Defined.
